(** * Gift-Recommendation-Bot: the chat page and its message store gateway

    A shallow embedding of [src/app/page.tsx] (the text formatter, the
    mount-time session initialisation, the send and clear-chat handlers) and
    of [src/lib/supabase.ts] (getHistory, saveMessage), followed by the
    properties the specification states about them.

    Conventions of the embedding.
    - A JavaScript string is a [string]; each [ascii] stands for one UTF-16
      code unit below 0x100, so the line terminators U+2028/U+2029 and the
      white space above U+00FF are outside the model.
    - A value parsed from JSON is a [JSON]; numbers are the integer-valued
      ones that JavaScript prints without an exponent.  [undefined] is
      [None] of an [option JSON].
    - Handlers run in the monad [M]: a state over [World] whose computations
      complete normally or by throwing.  An awaited promise is the completion
      it settles with; a handler runs without interleaving of other events. *)

From Stdlib Require Import ZArith Ascii DecimalString DecimalZ.
From stdpp Require Import base tactics option list sorting strings gmap.

Local Open Scope Z_scope.

(** ** JavaScript strings *)

Module JS.

(** [s.startsWith(p)] *)
Fixpoint startsWith (p s : string) : bool :=
  match p, s with
  | EmptyString, _ => true
  | String a p', String b s' => if decide (a = b) then startsWith p' s' else false
  | String _ _, EmptyString => false
  end.

(** The characters of [s] from index [n] on. *)
Fixpoint skip (n : nat) (s : string) : string :=
  match n, s with
  | O, _ => s
  | S n', String _ s' => skip n' s'
  | S _, EmptyString => EmptyString
  end.

(** [s.endsWith(p)]: [p] is found at index [length s - length p]. *)
Definition endsWith (p s : string) : bool :=
  if decide (String.length p ≤ String.length s)%nat
  then bool_decide (skip (String.length s - String.length p) s = p)
  else false.

(** [s.slice(start, end)]: a negative index counts from the end, both are
    clamped to the string, and an empty span gives the empty string. *)
Definition slice (start end_ : Z) (s : string) : string :=
  let len := Z.of_nat (String.length s) in
  let from := if start <? 0 then Z.max (len + start) 0 else Z.min start len in
  let to := if end_ <? 0 then Z.max (len + end_) 0 else Z.min end_ len in
  String.substring (Z.to_nat from) (Z.to_nat (Z.max (to - from) 0)) s.

(** [s.substr(start, length)] for a non-negative [start]. *)
Definition substr (start length : nat) (s : string) : string :=
  String.substring start length s.

(** White space and line terminators removed by [trim], below U+0100:
    TAB, LF, VT, FF, CR, SP and NBSP. *)
Definition is_white (c : ascii) : bool :=
  match c with
  | "009" | "010" | "011" | "012" | "013" | " " | "160" => true
  | _ => false
  end%char.

Fixpoint trimStart (s : string) : string :=
  match s with
  | String c s' => if is_white c then trimStart s' else s
  | EmptyString => EmptyString
  end.

(** The string without its trailing white space. *)
Fixpoint trimEnd (s : string) : string :=
  match s with
  | EmptyString => EmptyString
  | String c s' =>
      match trimEnd s' with
      | EmptyString => if is_white c then EmptyString else String c EmptyString
      | t => String c t
      end
  end.

(** [s.trim()] *)
Definition trim (s : string) : string := trimEnd (trimStart s).

(** The regular expression's [.]: any code unit but a line terminator. *)
Definition is_line_terminator (c : ascii) : bool :=
  match c with
  | "010" | "013" => true
  | _ => false
  end%char.

(** [String(n)] of an integer-valued number: its decimal digits. *)
Definition Number_toString (n : Z) : string :=
  NilZero.string_of_int (Z.to_int n).

End JS.

(** ** The text formatter ([formatText], page.tsx lines 14-25) *)

Module Formatter.

(** [.*?] followed by the literal [close]: the shortest run of code units,
    none a line terminator, after which [close] is found.  Returns the run
    and what follows the closing literal. *)
Fixpoint lazy_until (close s : string) : option (string * string) :=
  if JS.startsWith close s then Some (EmptyString, JS.skip (String.length close) s)
  else match s with
       | EmptyString => None
       | String c s' =>
           if JS.is_line_terminator c then None
           else match lazy_until close s' with
                | Some (run, rest) => Some (String c run, rest)
                | None => None
                end
       end.

(** One alternative [open .*? close] of the pattern, tried at the head of [s]:
    the matched text and the rest of the string. *)
Definition delimited (delim s : string) : option (string * string) :=
  if JS.startsWith delim s
  then match lazy_until delim (JS.skip (String.length delim) s) with
       | Some (run, rest) => Some (delim +:+ run +:+ delim, rest)
       | None => None
       end
  else None.

(** The pattern of [formatText], one capture group around the alternation
    of [\*\*.*?\*\*] and [\*.*?\*], matched at the head of [s]: the first
    alternative that succeeds is the match. *)
Definition regex_exec (s : string) : option (string * string) :=
  match delimited "**" s with
  | Some m => Some m
  | None => delimited "*" s
  end.

(** [text.split(pattern)] for the pattern above, which has one capture group
    and never matches the empty string.  [pending] is the text between the
    end of the last match and the position under test, last character first;
    a position where the pattern fails is passed over, a match closes the
    pending text and contributes its capture.  Every step consumes at least
    one character of [s], which [fuel] bounds. *)
Fixpoint split_loop (fuel : nat) (pending : string) (s : string) : list string :=
  match fuel with
  | O => [String.rev pending +:+ s]
  | S fuel' =>
      match s with
      | EmptyString => [String.rev pending]
      | String c s' =>
          match regex_exec s with
          | Some (captured, rest) =>
              String.rev pending :: captured :: split_loop fuel' EmptyString rest
          | None => split_loop fuel' (String c pending) s'
          end
      end
  end.

Definition split (text : string) : list string :=
  split_loop (S (String.length text)) EmptyString text.

(** What the formatter returns: text nodes and [<strong key=..>] elements. *)
Inductive Segment :=
| Plain (text : string)
| Strong (key : nat) (text : string).

Definition format_part (idx : nat) (part : string) : Segment :=
  if JS.startsWith "**" part && JS.endsWith "**" part
  then Strong idx (JS.slice 2 (-2) part)
  else if JS.startsWith "*" part && JS.endsWith "*" part
  then Strong idx (JS.slice 1 (-1) part)
  else Plain part.

Definition formatText (text : string) : list Segment :=
  imap format_part (split text).

End Formatter.

(** ** Values parsed from JSON *)

#[local] Unset Elimination Schemes.
Inductive JSON :=
| JNull
| JBool (b : bool)
| JNumber (n : Z)
| JString (s : string)
| JArray (items : list JSON)
| JObject (props : list (string * JSON)).
#[local] Set Elimination Schemes.

Module JSONValue.

(** ToBoolean: [null], [false], [0] and the empty string are falsy. *)
Definition truthy (v : JSON) : bool :=
  match v with
  | JNull => false
  | JBool b => b
  | JNumber n => negb (n =? 0)
  | JString s => negb (bool_decide (s = EmptyString))
  | JArray _ | JObject _ => true
  end.

(** An own property of an object.  A parsed object holds each key once; of
    a list that repeats a key the first binding is the one read. *)
Fixpoint lookup_prop (key : string) (props : list (string * JSON)) : option JSON :=
  match props with
  | [] => None
  | (k, v) :: rest => if decide (k = key) then Some v else lookup_prop key rest
  end.

Definition hex_digit (n : N) : ascii :=
  match n with
  | 0 => "0" | 1 => "1" | 2 => "2" | 3 => "3" | 4 => "4" | 5 => "5" | 6 => "6"
  | 7 => "7" | 8 => "8" | 9 => "9" | 10 => "a" | 11 => "b" | 12 => "c"
  | 13 => "d" | 14 => "e" | _ => "f"
  end%N%char.

(** One code unit inside a JSON string literal. *)
Definition quote_char (c : ascii) : string :=
  match c with
  | "008"%char => "\b"
  | "009"%char => "\t"
  | "010"%char => "\n"
  | "012"%char => "\f"
  | "013"%char => "\r"
  | "034"%char => String "\" (String "034" EmptyString)
  | "\"%char => "\\"
  | _ =>
      let n := N_of_ascii c in
      if (n <? 32)%N
      then "\u00" +:+ String (hex_digit (n / 16)) (String (hex_digit (n mod 16)) EmptyString)
      else String c EmptyString
  end.

Fixpoint quote_body (s : string) : string :=
  match s with
  | EmptyString => EmptyString
  | String c s' => quote_char c +:+ quote_body s'
  end.

(** QuoteJSONString *)
Definition quote (s : string) : string :=
  String "034" (quote_body s +:+ String "034" EmptyString).

(** [JSON.stringify(v)] without indentation. *)
Fixpoint stringify (v : JSON) : string :=
  match v with
  | JNull => "null"
  | JBool true => "true"
  | JBool false => "false"
  | JNumber n => JS.Number_toString n
  | JString s => quote s
  | JArray items => "[" +:+ String.concat "," (map stringify items) +:+ "]"
  | JObject props =>
      "{" +:+ String.concat ","
                (map (λ kv, match kv with
                            | (k, x) => quote k +:+ ":" +:+ stringify x
                            end) props) +:+ "}"
  end.

End JSONValue.

(** ** Data model *)

(** A persisted row ([ChatMessage], supabase.ts lines 14-20).  [id] and
    [created_at] are optional in the interface: [None] is an absent field.
    [created_at] is the instant, in milliseconds, its timestamp denotes.
    [role] is whatever text the row holds. *)
Module ChatMessage.
Record t := {
  id : option string;
  session_id : string;
  role : string;
  content : string;
  created_at : option Z
}.
End ChatMessage.

Inductive Sender := user | bot.

(** A view message ([Message], page.tsx lines 6-12).  [text] holds the value
    assigned at run time, [timestamp] is a Date as its time value ([None]:
    the invalid date), [chips] is [None] when the field is absent. *)
Module Message.
Record t := {
  id : option string;
  text : JSON;
  sender : Sender;
  timestamp : option Z;
  chips : option JSON
}.
End Message.

(** ** Completions, the environment and the world *)

(** What a [throw] or a rejected promise carries. *)
Inductive Thrown :=
| ErrorObject (name message : string)
| ThrownValue (v : JSON).

Inductive Completion (A : Type) :=
| Normal (a : A)
| Throw (t : Thrown).
Arguments Normal {A} a.
Arguments Throw {A} t.

(** The argument of [fetch] and what it resolves with; [json] is what
    [response.json()] settles with. *)
Record Request := {
  url : string;
  method : string;
  headers : list (string * string);
  body : string
}.

Record Response := {
  ok : bool;
  statusText : string;
  json : Completion JSON
}.

(** The two requests the code builds with the store client on the table
    chat_messages: select every column, where session_id equals [session],
    ordered by created_at ascending; and insert [rows]. *)
Inductive Query :=
| SelectHistory (session : string)
| InsertRows (rows : list ChatMessage.t).

Record PostgrestResponse := {
  data : option (list ChatMessage.t);
  error : option string
}.

(** How the hosted store answers: it runs the query, it answers with an
    error, or the call itself throws. *)
Inductive Service :=
| Healthy (server_time : Z) (returning : bool)
| Failing (err : string)
| Unreachable (t : Thrown).

(** The outside of the page during one handler run. *)
Record Env := {
  clock : nat → Z;                          (* successive readings of the clock, ms *)
  random : nat → list N;                    (* successive Math.random(), as base-36 fraction digits *)
  confirms : bool;                          (* the answer to confirm(..) *)
  backendUrl : option string;               (* process.env.NEXT_PUBLIC_Backend_URL *)
  network : Request → Completion Response;  (* what fetch settles with *)
  service : Service
}.

(** The component state, the browser storage, the hosted table, and what the
    page has emitted. *)
Record World := {
  messages : list Message.t;
  input : string;
  loading : bool;
  sessionId : string;
  localStorage : gmap string string;
  chat_messages : list ChatMessage.t;
  queries : list Query;
  requests : list Request;
  console : list string;
  ticks : nat;
  draws : nat
}.

Definition M (A : Type) : Type := Env → World → Completion A * World.

Module Run.

Definition ret {A} (a : A) : M A := λ _ w, (Normal a, w).

Definition bind {A B} (m : M A) (k : A → M B) : M B :=
  λ env w, match m env w with
           | (Normal a, w') => k a env w'
           | (Throw t, w') => (Throw t, w')
           end.

(** [try { body } catch (e) { handler e }] *)
Definition try_catch {A} (body : M A) (handler : Thrown → M A) : M A :=
  λ env w, match body env w with
           | (Normal a, w') => (Normal a, w')
           | (Throw t, w') => handler t env w'
           end.

(** [try { body } finally { final }] *)
Definition try_finally {A} (body : M A) (final : M unit) : M A :=
  λ env w, match body env w with
           | (c, w') => match final env w' with
                        | (Normal _, w'') => (c, w'')
                        | (Throw t, w'') => (Throw t, w'')
                        end
           end.

Definition throw {A} (t : Thrown) : M A := λ _ w, (Throw t, w).

End Run.

#[global] Instance M_ret : MRet M := @Run.ret.
#[global] Instance M_bind : MBind M := λ A B k m, Run.bind m k.

(** *** React state *)

Definition setMessages (f : list Message.t → list Message.t) : M unit :=
  λ _ w, (Normal (),
          {| messages := f (messages w); input := input w; loading := loading w;
             sessionId := sessionId w; localStorage := localStorage w;
             chat_messages := chat_messages w; queries := queries w;
             requests := requests w;
             console := console w; ticks := ticks w; draws := draws w |}).

Definition setInput (v : string) : M unit :=
  λ _ w, (Normal (),
          {| messages := messages w; input := v; loading := loading w;
             sessionId := sessionId w; localStorage := localStorage w;
             chat_messages := chat_messages w; queries := queries w;
             requests := requests w;
             console := console w; ticks := ticks w; draws := draws w |}).

Definition setLoading (v : bool) : M unit :=
  λ _ w, (Normal (),
          {| messages := messages w; input := input w; loading := v;
             sessionId := sessionId w; localStorage := localStorage w;
             chat_messages := chat_messages w; queries := queries w;
             requests := requests w;
             console := console w; ticks := ticks w; draws := draws w |}).

Definition setSessionId (v : string) : M unit :=
  λ _ w, (Normal (),
          {| messages := messages w; input := input w; loading := loading w;
             sessionId := v; localStorage := localStorage w;
             chat_messages := chat_messages w; queries := queries w;
             requests := requests w;
             console := console w; ticks := ticks w; draws := draws w |}).

(** The values the handler's closure holds. *)
Definition read {A} (field : World → A) : M A := λ _ w, (Normal (field w), w).

(** *** Browser and platform *)

Module localStorage_.

Definition getItem (key : string) : M (option string) :=
  λ _ w, (Normal (localStorage w !! key), w).

Definition setItem (key value : string) : M unit :=
  λ _ w, (Normal (),
          {| messages := messages w; input := input w; loading := loading w;
             sessionId := sessionId w; localStorage := <[key := value]> (localStorage w);
             chat_messages := chat_messages w; queries := queries w;
             requests := requests w;
             console := console w; ticks := ticks w; draws := draws w |}).

End localStorage_.

(** [Date.now()]: the next reading of the clock. *)
Definition Date_now : M Z :=
  λ env w, (Normal (clock env (ticks w)),
            {| messages := messages w; input := input w; loading := loading w;
               sessionId := sessionId w; localStorage := localStorage w;
               chat_messages := chat_messages w; queries := queries w;
             requests := requests w;
               console := console w; ticks := S (ticks w); draws := draws w |}).

(** [new Date()] *)
Definition new_Date : M (option Z) := now ← Date_now; mret (Some now).

(** [Math.random()]: the next draw. *)
Definition Math_random : M (list N) :=
  λ env w, (Normal (random env (draws w)),
            {| messages := messages w; input := input w; loading := loading w;
               sessionId := sessionId w; localStorage := localStorage w;
               chat_messages := chat_messages w; queries := queries w;
             requests := requests w;
               console := console w; ticks := ticks w; draws := S (draws w) |}).

Definition confirm (question : string) : M bool := λ env w, (Normal (confirms env), w).

Definition console_error (label : string) : M unit :=
  λ _ w, (Normal (),
          {| messages := messages w; input := input w; loading := loading w;
             sessionId := sessionId w; localStorage := localStorage w;
             chat_messages := chat_messages w; queries := queries w;
             requests := requests w;
             console := console w ++ [label]; ticks := ticks w; draws := draws w |}).

(** [process.env.NEXT_PUBLIC_Backend_URL] *)
Definition process_env_Backend_URL : M (option string) :=
  λ env w, (Normal (backendUrl env), w).

(** [await fetch(url, init)]: the request leaves, the promise settles. *)
Definition fetch (req : Request) : M Response :=
  λ env w, (network env req,
            {| messages := messages w; input := input w; loading := loading w;
               sessionId := sessionId w; localStorage := localStorage w;
               chat_messages := chat_messages w; queries := queries w;
             requests := requests w ++ [req];
               console := console w; ticks := ticks w; draws := draws w |}).

(** [await response.json()] *)
Definition response_json (r : Response) : M JSON := λ _ w, (json r, w).

(** [data.key]: reading a property of [null] throws a TypeError; a value
    that is no object has none of the keys read here. *)
Definition prop (data : JSON) (key : string) : M (option JSON) :=
  match data with
  | JNull =>
      Run.throw (ErrorObject "TypeError"
                   ("Cannot read properties of null (reading '" +:+ key +:+ "')"))
  | JObject props => mret (JSONValue.lookup_prop key props)
  | _ => mret None
  end.

(** [a || b] where [b] is never undefined: [b] is evaluated only when [a]
    is falsy. *)
Definition or_else (a : M (option JSON)) (b : M JSON) : M JSON :=
  v ← a;
  match v with
  | Some x => if JSONValue.truthy x then mret x else b
  | None => b
  end.

(** [n.toString(36)] of a number in [0, 1) with the given base-36 fraction
    digits. *)
Definition digit36 (d : N) : ascii :=
  match String.get (N.to_nat (d mod 36)) "0123456789abcdefghijklmnopqrstuvwxyz" with
  | Some c => c
  | None => "0"%char
  end.

Definition toString36 (fraction : list N) : string :=
  match fraction with
  | [] => "0"
  | _ => "0." +:+ String.string_of_list_ascii (map digit36 fraction)
  end.

(** *** The hosted store *)

Module Store.

(** Ascending order of created_at, rows without a timestamp last. *)
Definition created_le (a b : ChatMessage.t) : Prop :=
  match ChatMessage.created_at a, ChatMessage.created_at b with
  | Some x, Some y => x ≤ y
  | None, Some _ => False
  | _, None => True
  end.

#[global] Instance created_le_dec : RelDecision created_le.
Proof.
  intros a b. unfold created_le.
  destruct (ChatMessage.created_at a), (ChatMessage.created_at b); apply _.
Defined.

Definition select_history (session : string) (table : list ChatMessage.t)
  : list ChatMessage.t :=
  merge_sort created_le
    (filter (λ r, ChatMessage.session_id r = session) table).

(** A row as stored: the server fills in the identifier and the timestamp
    the client left out. *)
Definition complete (server_time : Z) (seq : nat) (r : ChatMessage.t) : ChatMessage.t :=
  {| ChatMessage.id :=
       Some (default (JS.Number_toString (Z.of_nat seq)) (ChatMessage.id r));
     ChatMessage.session_id := ChatMessage.session_id r;
     ChatMessage.role := ChatMessage.role r;
     ChatMessage.content := ChatMessage.content r;
     ChatMessage.created_at :=
       Some (default server_time (ChatMessage.created_at r)) |}.

Definition insert_rows (server_time : Z) (rows table : list ChatMessage.t)
  : list ChatMessage.t :=
  foldl (λ tbl r, tbl ++ [complete server_time (S (length tbl)) r]) table rows.

(** The table after the query, and the [data] of the answer; an insert
    answers with the rows it stored when the client asks for them back
    ([returning]) and without rows otherwise. *)
Definition exec (server_time : Z) (returning : bool) (q : Query)
    (table : list ChatMessage.t)
  : list ChatMessage.t * option (list ChatMessage.t) :=
  match q with
  | SelectHistory session => (table, Some (select_history session table))
  | InsertRows rows =>
      let table' := insert_rows server_time rows table in
      (table', if returning then Some (drop (length table) table') else None)
  end.

End Store.

(** [await supabase.from(chat_messages)...]: the query leaves and the
    service answers. *)
Definition supabase_await (q : Query) : M PostgrestResponse :=
  λ env w,
    let sent table :=
      {| messages := messages w; input := input w; loading := loading w;
         sessionId := sessionId w; localStorage := localStorage w;
         chat_messages := table; queries := queries w ++ [q];
         requests := requests w;
         console := console w; ticks := ticks w; draws := draws w |} in
    match service env with
    | Healthy server_time returning =>
        let '(table, rows) := Store.exec server_time returning q (chat_messages w) in
        (Normal {| data := rows; error := None |}, sent table)
    | Failing err =>
        (Normal {| data := None; error := Some err |}, sent (chat_messages w))
    | Unreachable t => (Throw t, sent (chat_messages w))
    end.

(** ** The message store gateway (supabase.ts) *)

Definition role_name (r : Sender) : string :=
  match r with user => "user" | bot => "bot" end.

(** [getHistory], lines 27-45 *)
Definition getHistory (sessionId : string) : M (option (list ChatMessage.t)) :=
  Run.try_catch
    (r ← supabase_await (SelectHistory sessionId);
     match error r with
     | Some _ =>
         console_error "Error fetching chat history:";;
         mret None
     | None => mret (data r)
     end)
    (λ _,
       console_error "Unexpected error fetching chat history:";;
       mret None).

(** [saveMessage], lines 54-78 *)
Definition saveMessage (sessionId : string) (role : Sender) (content : string)
  : M (option (list ChatMessage.t)) :=
  Run.try_catch
    (r ← supabase_await
           (InsertRows [ {| ChatMessage.id := None;
                            ChatMessage.session_id := sessionId;
                            ChatMessage.role := role_name role;
                            ChatMessage.content := content;
                            ChatMessage.created_at := None |} ]);
     match error r with
     | Some _ =>
         console_error "Error saving message:";;
         mret None
     | None => mret (data r)
     end)
    (λ _,
       console_error "Unexpected error saving message:";;
       mret None).

(** ** The chat page (page.tsx) *)

(** The template literal of lines 42 and 157: session_, the clock reading,
    an underscore, and [random.toString(36).substr(2, 9)]. *)
Definition session_id_of (now : Z) (random : list N) : string :=
  "session_" +:+ JS.Number_toString now +:+ "_" +:+ JS.substr 2 9 (toString36 random).

Definition new_session_id : M string :=
  now ← Date_now;
  r ← Math_random;
  mret (session_id_of now r).

(** The view message of a persisted one, lines 62-67. *)
Definition loaded_message (msg : ChatMessage.t) : Message.t :=
  {| Message.id := ChatMessage.id msg;
     Message.text := JString (ChatMessage.content msg);
     Message.sender := if decide (ChatMessage.role msg = "user") then user else bot;
     Message.timestamp := ChatMessage.created_at msg;
     Message.chips := None |}.

(** [initializeSession], lines 36-73 *)
Definition initializeSession : M unit :=
  stored ← localStorage_.getItem "chatSessionId";
  savedSessionId ←
    match stored with
    | Some s =>
        if decide (s = "")
        then fresh ← new_session_id;
             localStorage_.setItem "chatSessionId" fresh;;
             mret fresh
        else mret s
    | None =>
        fresh ← new_session_id;
        localStorage_.setItem "chatSessionId" fresh;;
        mret fresh
    end;
  setSessionId savedSessionId;;
  Run.try_catch
    (r ← supabase_await (SelectHistory savedSessionId);
     match error r with
     | Some _ => console_error "Error loading chat history:"
     | None =>
         match data r with
         | Some ((_ :: _) as rows) => setMessages (λ _, map loaded_message rows)
         | _ => mret ()
         end
     end)
    (λ _, console_error "Error initializing session:").

(** The request of lines 103-109; an undefined base URL is rendered by the
    template literal as the word undefined. *)
Definition chat_request (backendUrl : option string) (messageText sessionId : string)
  : Request :=
  {| url := default "undefined" backendUrl +:+ "/chat";
     method := "POST";
     headers := [("Content-Type", "application/json")];
     body := JSONValue.stringify
               (JObject [("message", JString messageText);
                         ("session_id", JString sessionId)]) |}.

(** The text of the placeholder built in the catch block, line 133. *)
Definition caught_text (error : Thrown) : string :=
  "Error: " +:+ match error with
                | ErrorObject _ message => message
                | ThrownValue _ => "Unknown error"
                end.

(** [handleSend], lines 86-141 *)
Definition handleSend : M unit :=
  input ← read input;
  sessionId ← read sessionId;
  if bool_decide (JS.trim input = "") || bool_decide (sessionId = "")
  then mret ()
  else
    id ← Date_now;
    timestamp ← new_Date;
    let userMessage :=
      {| Message.id := Some (JS.Number_toString id);
         Message.text := JString input;
         Message.sender := user;
         Message.timestamp := timestamp;
         Message.chips := None |} in
    setMessages (λ prev, prev ++ [userMessage]);;
    let messageText := input in
    setInput "";;
    setLoading true;;
    Run.try_finally
      (Run.try_catch
         (backendUrl ← process_env_Backend_URL;
          response ← fetch (chat_request backendUrl messageText sessionId);
          if ok response
          then
            data ← response_json response;
            id ← Date_now;
            text ← or_else (prop data "reply")
                     (or_else (prop data "message")
                        (mret (JString (JSONValue.stringify data))));
            timestamp ← new_Date;
            chips ← or_else (prop data "chips") (mret (JArray []));
            let botMessage :=
              {| Message.id := Some (JS.Number_toString (id + 1));
                 Message.text := text;
                 Message.sender := bot;
                 Message.timestamp := timestamp;
                 Message.chips := Some chips |} in
            setMessages (λ prev, prev ++ [botMessage])
          else
            id ← Date_now;
            timestamp ← new_Date;
            let errorMessage :=
              {| Message.id := Some (JS.Number_toString (id + 1));
                 Message.text := JString ("Error: " +:+ statusText response);
                 Message.sender := bot;
                 Message.timestamp := timestamp;
                 Message.chips := None |} in
            setMessages (λ prev, prev ++ [errorMessage]))
         (λ error,
            id ← Date_now;
            timestamp ← new_Date;
            let errorMessage :=
              {| Message.id := Some (JS.Number_toString (id + 1));
                 Message.text := JString (caught_text error);
                 Message.sender := bot;
                 Message.timestamp := timestamp;
                 Message.chips := None |} in
            setMessages (λ prev, prev ++ [errorMessage])))
      (setLoading false).

(** [handleClearChat], lines 150-161 *)
Definition handleClearChat : M unit :=
  yes ← confirm "Are you sure you want to clear the chat history and start a new conversation?";
  if (yes : bool)
  then
    setMessages (λ _, []);;
    setInput "";;
    newSessionId ← new_session_id;
    setSessionId newSessionId;;
    localStorage_.setItem "chatSessionId" newSessionId
  else mret ().

(** ** Vocabulary for one send *)

Section Send.

Variable env : Env.
Variable w : World.

(** What the backend answers to the request this send issues. *)
Definition backend_answer : Completion Response :=
  network env (chat_request (backendUrl env) (input w) (sessionId w)).

(** The send goes ahead: the trimmed input and the session are non-empty. *)
Definition sendable : Prop := JS.trim (input w) ≠ "" ∧ sessionId w ≠ "".

(** The message of lines 89-94. *)
Definition userMessage : Message.t :=
  {| Message.id := Some (JS.Number_toString (clock env (ticks w)));
     Message.text := JString (input w);
     Message.sender := user;
     Message.timestamp := Some (clock env (S (ticks w)));
     Message.chips := None |}.

(** The placeholder of the non-success branch, lines 122-127. *)
Definition statusMessage (r : Response) : Message.t :=
  {| Message.id := Some (JS.Number_toString (clock env (S (S (ticks w))) + 1));
     Message.text := JString ("Error: " +:+ statusText r);
     Message.sender := bot;
     Message.timestamp := Some (clock env (S (S (S (ticks w)))));
     Message.chips := None |}.

(** The placeholder of the catch block, lines 131-136, built when [read]
    clock readings were taken inside the try block. *)
Definition caughtMessage (read : nat) (t : Thrown) : Message.t :=
  {| Message.id := Some (JS.Number_toString (clock env (read + S (S (ticks w))) + 1));
     Message.text := JString (caught_text t);
     Message.sender := bot;
     Message.timestamp := Some (clock env (read + S (S (S (ticks w)))));
     Message.chips := None |}.

(** What reading [reply] of a [null] body throws. *)
Definition null_read : Thrown :=
  ErrorObject "TypeError" "Cannot read properties of null (reading 'reply')".

(** A field of the parsed body, [None] when the body has none of that name. *)
Definition field (d : JSON) (key : string) : option JSON :=
  match d with
  | JObject props => JSONValue.lookup_prop key props
  | _ => None
  end.

(** The field when it is there and truthy. *)
Definition truthy_field (d : JSON) (key : string) : option JSON :=
  match field d key with
  | Some v => if JSONValue.truthy v then Some v else None
  | None => None
  end.

(** The message of lines 113-119 for a body that is not [null]. *)
Definition replyMessage (d : JSON) : Message.t :=
  {| Message.id := Some (JS.Number_toString (clock env (S (S (ticks w))) + 1));
     Message.text :=
       default (default (JString (JSONValue.stringify d)) (truthy_field d "message"))
         (truthy_field d "reply");
     Message.sender := bot;
     Message.timestamp := Some (clock env (S (S (S (ticks w)))));
     Message.chips := Some (default (JArray []) (truthy_field d "chips")) |}.

(** The backend answered with a success status and a parsed body from which
    the reply was built. *)
Definition replied : Prop :=
  ∃ r d, backend_answer = Normal r ∧ ok r = true ∧ json r = Normal d ∧ d ≠ JNull.

(** The fetch was rejected, or the body of a success answer did not parse. *)
Definition failed_with (t : Thrown) : Prop :=
  backend_answer = Throw t ∨
  ∃ r, backend_answer = Normal r ∧ ok r = true ∧ json r = Throw t.

End Send.

(** The reply text and chips chosen by the presence of the fields alone. *)
Definition text_by_presence (d : JSON) : JSON :=
  match field d "reply" with
  | Some v => v
  | None =>
      match field d "message" with
      | Some v => v
      | None => JString (JSONValue.stringify d)
      end
  end.

Definition chips_by_presence (d : JSON) : JSON :=
  default (JArray []) (field d "chips").

(** ** Sample environments and worlds *)

Module Sample.

(** A backend that answers every request with the given completion, a clock
    that advances one millisecond per reading, a store that is up. *)
Definition env (answer : Completion Response) (fraction : list N) : Env :=
  {| clock := λ n, 1700000000000 + Z.of_nat n;
     random := λ _, fraction;
     confirms := true;
     backendUrl := Some "http://localhost:8000";
     network := λ _, answer;
     service := Healthy 1700000000500 false |}.

(** The same with a store that answers every query with an error. *)
Definition store_down : Env :=
  {| clock := λ n, 1700000000000 + Z.of_nat n;
     random := λ _, [];
     confirms := true;
     backendUrl := Some "http://localhost:8000";
     network := λ _, Throw (ErrorObject "TypeError" "Failed to fetch");
     service := Failing "connection refused" |}.

Definition replying (body : JSON) : Env :=
  env (Normal {| ok := true; statusText := "OK"; json := Normal body |}) [].

(** A page with a resolved session and [text] typed in. *)
Definition typed (text : string) : World :=
  {| messages := []; input := text; loading := false; sessionId := "s1";
     localStorage := {[ "chatSessionId" := "s1" ]};
     chat_messages := []; queries := []; requests := []; console := [];
     ticks := 0; draws := 0 |}.

End Sample.

(** ** Vocabulary for sessions *)

Definition session_key : string := "chatSessionId".

(** The identifier the page finds stored, if it is one it keeps. *)
Definition stored_session (w : World) : option string :=
  match localStorage w !! session_key with
  | Some s => if decide (s = "") then None else Some s
  | None => None
  end.

(** The identifier a generation in world [w] produces. *)
Definition fresh_session (env : Env) (w : World) : string :=
  session_id_of (clock env (ticks w)) (random env (draws w)).

(** Successive mounts of the page, one environment each. *)
Definition mounts (envs : list Env) (w : World) : World :=
  foldl (λ w env, (initializeSession env w).2) w envs.

Definition is_base36 (c : ascii) : bool :=
  let n := N_of_ascii c in
  ((48 <=? n) && (n <=? 57) || (97 <=? n) && (n <=? 122))%N.

(** ** The specification's wording, where it differs from the code *)

(** The reply as the specification words it: on a success answer the text
    and the chips of the appended bot message are chosen by the presence of
    the fields of the body. *)
Definition reply_chosen_by_presence : Prop :=
  ∀ env w r d,
    sendable w → backend_answer env w = Normal r → ok r = true →
    json r = Normal d →
    ∃ u m, messages (handleSend env w).2 = messages w ++ [u; m] ∧
           Message.sender m = bot ∧
           Message.text m = text_by_presence d ∧
           Message.chips m = Some (chips_by_presence d).

(** The identifier format as the specification words it: an identifier
    generated on a first visit or on a reset is session_, the clock reading,
    an underscore and a suffix of nine base-36 characters. *)
Definition nine_digit_suffix (now : Z) (id : string) : Prop :=
  ∃ suffix, id = "session_" +:+ JS.Number_toString now +:+ "_" +:+ suffix ∧
            String.length suffix = 9%nat ∧
            Forall (λ c, is_base36 c = true) (String.list_ascii_of_string suffix).

Definition generated_ids_have_nine_digits : Prop :=
  ∀ env w,
    (stored_session w = None →
     nine_digit_suffix (clock env (ticks w)) (sessionId (initializeSession env w).2)) ∧
    (confirms env = true →
     nine_digit_suffix (clock env (ticks w)) (sessionId (handleClearChat env w).2)).

Module Sample5.
(** A first visit during which Math.random() returns one half, which
    toString(36) renders as 0.i *)
Definition env : Env := Sample.env (Throw (ThrownValue JNull)) [18%N].
Definition first_visit : World :=
  {| messages := []; input := ""; loading := false; sessionId := "";
     localStorage := ∅; chat_messages := []; queries := []; requests := [];
     console := []; ticks := 0; draws := 0 |}.
End Sample5.

(** The reset as the specification words it: a confirmed clear-chat empties
    the list and the input and persists a new identifier that differs from
    the previous one, leaving the stored rows alone. *)
Definition clear_chat_always_changes_session : Prop :=
  ∀ env w,
    confirms env = true →
    let w' := (handleClearChat env w).2 in
    messages w' = [] ∧ input w' = "" ∧
    sessionId w' ≠ sessionId w ∧
    localStorage w' !! session_key = Some (sessionId w') ∧
    chat_messages w' = chat_messages w.

Module Sample4.
(** A reset whose clock reading and random digits are those the current
    identifier was built from. *)
Definition env : Env :=
  {| clock := λ _, 1700000000000;
     random := λ _, [10; 11; 12; 13; 14; 15; 16; 17; 18; 19; 20]%N;
     confirms := true;
     backendUrl := None;
     network := λ _, Throw (ThrownValue JNull);
     service := Healthy 1700000000000 false |}.
Definition page : World :=
  {| messages := []; input := ""; loading := false;
     sessionId := "session_1700000000000_abcdefghi";
     localStorage := {[ "chatSessionId" := "session_1700000000000_abcdefghi" ]};
     chat_messages := []; queries := []; requests := []; console := [];
     ticks := 1; draws := 1 |}.
End Sample4.

Module Sample6.
(** A browser whose storage holds the empty string under the key. *)
Definition page : World :=
  {| messages := []; input := ""; loading := false; sessionId := "";
     localStorage := {[ "chatSessionId" := "" ]};
     chat_messages := []; queries := []; requests := []; console := [];
     ticks := 0; draws := 0 |}.
End Sample6.

(** ** More samples *)

(** A mount that finds stored history. *)
Module Sample3.
Definition row (n : nat) (session role content : string) (at_ : Z) : ChatMessage.t :=
  {| ChatMessage.id := Some (JS.Number_toString (Z.of_nat n));
     ChatMessage.session_id := session; ChatMessage.role := role;
     ChatMessage.content := content; ChatMessage.created_at := Some at_ |}.
(** A table whose rows for the session s1 are stored out of order, among
    one of another session. *)
Definition page : World :=
  {| messages := []; input := ""; loading := false; sessionId := "";
     localStorage := {[ "chatSessionId" := "s1" ]};
     chat_messages := [row 1 "s1" "bot" "Hello!" 20; row 2 "s2" "user" "other" 5;
                       row 3 "s1" "user" "hi" 10; row 4 "s1" "assistant" "bye" 30];
     queries := []; requests := []; console := []; ticks := 0; draws := 0 |}.
End Sample3.

(** The row [saveMessage] sends: the three fields it is given, no
    identifier and no timestamp. *)
Definition new_row (sessionId : string) (role : Sender) (content : string)
  : ChatMessage.t :=
  {| ChatMessage.id := None;
     ChatMessage.session_id := sessionId;
     ChatMessage.role := role_name role;
     ChatMessage.content := content;
     ChatMessage.created_at := None |}.

(** ** The rest of the page: keys, typing, chips, and whole sessions *)

Module KeyboardEvent.
Record t := { key : string; shiftKey : bool }.
End KeyboardEvent.

(** [handleKeyPress], lines 143-148.  The result tells whether the default
    action of the key was prevented.  The send it starts is not awaited by
    the handler; here it runs to its end before the next event. *)
Definition handleKeyPress (e : KeyboardEvent.t) : M bool :=
  if bool_decide (KeyboardEvent.key e = "Enter") && negb (KeyboardEvent.shiftKey e)
  then handleSend;; mret true
  else mret false.

(** The onChange of the textarea, line 250. *)
Definition handleChange (value : string) : M unit := setInput value.

(** The onClick of a suggestion chip, line 218. *)
Definition handleChipClick (chip : string) : M unit := setInput chip.

(** The [disabled] attribute of the send button, line 259. *)
Definition send_disabled (w : World) : bool :=
  loading w || bool_decide (JS.trim (input w) = "").

(** What can happen to a mounted page, one event at a time. *)
Inductive Action :=
| Mount
| Change (value : string)
| ClickChip (chip : string)
| ClickSend
| PressKey (e : KeyboardEvent.t)
| ClickClear.

Definition perform (a : Action) : M unit :=
  match a with
  | Mount => initializeSession
  | Change value => handleChange value
  | ClickChip chip => handleChipClick chip
  | ClickSend => handleSend
  | PressKey e => handleKeyPress e;; mret ()
  | ClickClear => handleClearChat
  end.

(** The world after a sequence of events, each in its own environment. *)
Definition after (events : list (Env * Action)) (w : World) : World :=
  foldl (λ w ea, (perform ea.2 ea.1 w).2) w events.

(** A state the page itself produces: what a mount and any events after it
    leave. *)
Definition page_state (w : World) : Prop :=
  ∃ env events w0, w = after ((env, Mount) :: events) w0.

(** The event starts a send: a click on the button or a key press. *)
Definition is_send (a : Action) : bool :=
  match a with
  | ClickSend | PressKey _ => true
  | _ => false
  end.

Definition is_mount (a : Action) : bool :=
  match a with
  | Mount => true
  | _ => false
  end.

(** The event is one that replaces the message list: a mount or a reset. *)
Definition replaces_messages (a : Action) : bool :=
  match a with
  | Mount | ClickClear => true
  | _ => false
  end.

(** The session of the page is the stored one, and it is not empty. *)
Definition session_resolved (w : World) : Prop :=
  localStorage w !! session_key = Some (sessionId w) ∧ sessionId w ≠ "".

(** Only bot messages carry chips. *)
Definition chips_on_bot_only (w : World) : Prop :=
  ∀ m, m ∈ messages w → Message.chips m ≠ None → Message.sender m = bot.

(** The query reads. *)
Definition is_select (q : Query) : Prop := ∃ session, q = SelectHistory session.

(** A page before its first mount. *)
Definition unmounted (storage : gmap string string) (table : list ChatMessage.t)
  : World :=
  {| messages := []; input := ""; loading := false; sessionId := "";
     localStorage := storage; chat_messages := table; queries := [];
     requests := []; console := []; ticks := 0; draws := 0 |}.

(** ** The handlers between their awaits *)

(** A handler suspended at an await: [handleSend] at the fetch of line 103
    or at the parse of line 112, [initializeSession] at the query of line
    50. *)
Inductive Pending :=
| AwaitsFetch (req : Request)
| AwaitsJson (response : Response)
| AwaitsHistory (session : string).

(** The request leaves; the promise it returns is still pending. *)
Definition issue (req : Request) : M unit :=
  λ _ w, (Normal (),
          {| messages := messages w; input := input w; loading := loading w;
             sessionId := sessionId w; localStorage := localStorage w;
             chat_messages := chat_messages w; queries := queries w;
             requests := requests w ++ [req];
             console := console w; ticks := ticks w; draws := draws w |}).

(** The promise of a fetch settles. *)
Definition fetch_settled (req : Request) : M Response :=
  λ env w, (network env req, w).

(** The query leaves. *)
Definition ask (q : Query) : M unit :=
  λ _ w, (Normal (),
          {| messages := messages w; input := input w; loading := loading w;
             sessionId := sessionId w; localStorage := localStorage w;
             chat_messages := chat_messages w; queries := queries w ++ [q];
             requests := requests w;
             console := console w; ticks := ticks w; draws := draws w |}).

(** The store answers a query that has left. *)
Definition supabase_settled (q : Query) : M PostgrestResponse :=
  λ env w,
    let served table :=
      {| messages := messages w; input := input w; loading := loading w;
         sessionId := sessionId w; localStorage := localStorage w;
         chat_messages := table; queries := queries w;
         requests := requests w;
         console := console w; ticks := ticks w; draws := draws w |} in
    match service env with
    | Healthy server_time returning =>
        let '(table, rows) := Store.exec server_time returning q (chat_messages w) in
        (Normal {| data := rows; error := None |}, served table)
    | Failing err => (Normal {| data := None; error := Some err |}, w)
    | Unreachable t => (Throw t, w)
    end.

(** [try { body } finally { final }] around a body that may suspend at an
    await: the final block runs when the body is over, not when it is
    suspended. *)
Definition try_finally_unless_suspended (body : M (option Pending))
    (final : M unit) : M (option Pending) :=
  λ env w, match body env w with
           | (Normal (Some p), w') => (Normal (Some p), w')
           | (c, w') => match final env w' with
                        | (Normal _, w'') => (c, w'')
                        | (Throw t, w'') => (Throw t, w'')
                        end
           end.

(** The catch block of [handleSend], lines 130-137. *)
Definition append_caught (error : Thrown) : M (option Pending) :=
  id ← Date_now;
  timestamp ← new_Date;
  let errorMessage :=
    {| Message.id := Some (JS.Number_toString (id + 1));
       Message.text := JString (caught_text error);
       Message.sender := bot;
       Message.timestamp := timestamp;
       Message.chips := None |} in
  setMessages (λ prev, prev ++ [errorMessage]);;
  mret None.

(** [handleSend] up to the await of the fetch, lines 87-109. *)
Definition handleSend_begin : M (option Pending) :=
  input ← read input;
  sessionId ← read sessionId;
  if bool_decide (JS.trim input = "") || bool_decide (sessionId = "")
  then mret None
  else
    id ← Date_now;
    timestamp ← new_Date;
    let userMessage :=
      {| Message.id := Some (JS.Number_toString id);
         Message.text := JString input;
         Message.sender := user;
         Message.timestamp := timestamp;
         Message.chips := None |} in
    setMessages (λ prev, prev ++ [userMessage]);;
    let messageText := input in
    setInput "";;
    setLoading true;;
    try_finally_unless_suspended
      (Run.try_catch
         (backendUrl ← process_env_Backend_URL;
          let req := chat_request backendUrl messageText sessionId in
          issue req;;
          mret (Some (AwaitsFetch req)))
         append_caught)
      (setLoading false).

(** [handleSend] from the settling of the fetch to the await of the parse
    or to its end, lines 103-129. *)
Definition handleSend_fetched (req : Request) : M (option Pending) :=
  try_finally_unless_suspended
    (Run.try_catch
       (response ← fetch_settled req;
        if ok response
        then mret (Some (AwaitsJson response))
        else
          id ← Date_now;
          timestamp ← new_Date;
          let errorMessage :=
            {| Message.id := Some (JS.Number_toString (id + 1));
               Message.text := JString ("Error: " +:+ statusText response);
               Message.sender := bot;
               Message.timestamp := timestamp;
               Message.chips := None |} in
          setMessages (λ prev, prev ++ [errorMessage]);;
          mret None)
       append_caught)
    (setLoading false).

(** [handleSend] from the settling of the parse to its end, lines 112-120. *)
Definition handleSend_parsed (response : Response) : M (option Pending) :=
  try_finally_unless_suspended
    (Run.try_catch
       (data ← response_json response;
        id ← Date_now;
        text ← or_else (prop data "reply")
                 (or_else (prop data "message")
                    (mret (JString (JSONValue.stringify data))));
        timestamp ← new_Date;
        chips ← or_else (prop data "chips") (mret (JArray []));
        let botMessage :=
          {| Message.id := Some (JS.Number_toString (id + 1));
             Message.text := text;
             Message.sender := bot;
             Message.timestamp := timestamp;
             Message.chips := Some chips |} in
        setMessages (λ prev, prev ++ [botMessage]);;
        mret None)
       append_caught)
    (setLoading false).

(** [initializeSession] up to the await of the query, lines 38-54. *)
Definition initializeSession_begin : M (option Pending) :=
  stored ← localStorage_.getItem "chatSessionId";
  savedSessionId ←
    match stored with
    | Some s =>
        if decide (s = "")
        then fresh ← new_session_id;
             localStorage_.setItem "chatSessionId" fresh;;
             mret fresh
        else mret s
    | None =>
        fresh ← new_session_id;
        localStorage_.setItem "chatSessionId" fresh;;
        mret fresh
    end;
  setSessionId savedSessionId;;
  ask (SelectHistory savedSessionId);;
  mret (Some (AwaitsHistory savedSessionId)).

(** [initializeSession] from the answer of the store on, lines 50-72. *)
Definition initializeSession_loaded (session : string) : M (option Pending) :=
  Run.try_catch
    (r ← supabase_settled (SelectHistory session);
     match error r with
     | Some _ => console_error "Error loading chat history:"
     | None =>
         match data r with
         | Some ((_ :: _) as rows) => setMessages (λ _, map loaded_message rows)
         | _ => mret ()
         end
     end)
    (λ _, console_error "Error initializing session:");;
  mret None.

(** The handlers run from one await to the next without a pause. *)
Definition handleSend_unsuspended : M unit :=
  p ← handleSend_begin;
  match p with
  | Some (AwaitsFetch req) =>
      p' ← handleSend_fetched req;
      match p' with
      | Some (AwaitsJson response) => handleSend_parsed response;; mret ()
      | _ => mret ()
      end
  | _ => mret ()
  end.

Definition initializeSession_unsuspended : M unit :=
  p ← initializeSession_begin;
  match p with
  | Some (AwaitsHistory session) => initializeSession_loaded session;; mret ()
  | _ => mret ()
  end.

(** The page and the handlers it has suspended. *)
Record Page := { world : World; pending : list Pending }.

(** A turn of the event loop: an event starts its handler, which runs to
    its first await, or the await at some position settles and its handler
    runs on to the next. *)
Inductive Tick :=
| Begin (a : Action)
| Settle (i : nat).

Definition begin (a : Action) : M (option Pending) :=
  match a with
  | Mount => initializeSession_begin
  | Change value => handleChange value;; mret None
  | ClickChip chip => handleChipClick chip;; mret None
  | ClickSend => handleSend_begin
  | PressKey e =>
      if bool_decide (KeyboardEvent.key e = "Enter") && negb (KeyboardEvent.shiftKey e)
      then handleSend_begin
      else mret None
  | ClickClear => handleClearChat;; mret None
  end.

Definition settle (p : Pending) : M (option Pending) :=
  match p with
  | AwaitsFetch req => handleSend_fetched req
  | AwaitsJson response => handleSend_parsed response
  | AwaitsHistory session => initializeSession_loaded session
  end.

(** The handler a run leaves suspended, if any. *)
Definition suspended (r : Completion (option Pending) * World) : list Pending :=
  match r.1 with
  | Normal (Some p) => [p]
  | _ => []
  end.

Definition tick (env : Env) (t : Tick) (p : Page) : Page :=
  match t with
  | Begin a =>
      let r := begin a env (world p) in
      {| world := r.2; pending := pending p ++ suspended r |}
  | Settle i =>
      match pending p !! i with
      | Some task =>
          let r := settle task env (world p) in
          {| world := r.2; pending := delete i (pending p) ++ suspended r |}
      | None => p
      end
  end.

(** The page after a schedule of turns, each in its own environment. *)
Definition interleaved (schedule : list (Env * Tick)) (p : Page) : Page :=
  foldl (λ p et, tick et.1 et.2 p) p schedule.

Definition awaits_history (p : Pending) : bool :=
  match p with
  | AwaitsHistory _ => true
  | _ => false
  end.

(** The turn starts neither a mount nor a reset. *)
Definition keeps_list (t : Tick) : bool :=
  match t with
  | Begin Mount | Begin ClickClear => false
  | _ => true
  end.

(** A page in mid-conversation: a user message, a reply with chips, and a
    text typed in. *)
Module Sample9.
Definition page : World :=
  {| messages :=
       [ {| Message.id := Some "1"; Message.text := JString "a gift for dad";
            Message.sender := user; Message.timestamp := Some 1699999999000;
            Message.chips := None |};
         {| Message.id := Some "2"; Message.text := JString "What does he like?";
            Message.sender := bot; Message.timestamp := Some 1699999999500;
            Message.chips := Some (JArray [JString "fishing"; JString "books"]) |} ];
     input := "he likes fishing"; loading := false; sessionId := "s1";
     localStorage := {[ "chatSessionId" := "s1" ]};
     chat_messages := []; queries := []; requests := []; console := [];
     ticks := 0; draws := 0 |}.

Definition enter : KeyboardEvent.t :=
  {| KeyboardEvent.key := "Enter"; KeyboardEvent.shiftKey := false |}.
End Sample9.

(** Two sends in flight at once on a page in mid-conversation: the second
    is started by a key press while the first awaits its answer, and the
    answer to the second arrives first. *)
Module Sample10.
Definition slow : Env :=
  Sample.replying (JObject [("reply", JString "A rod?")]).
Definition down : Env :=
  Sample.env (Throw (ErrorObject "TypeError" "Failed to fetch")) [].
Definition schedule : list (Env * Tick) :=
  [(slow, Begin ClickSend);
   (slow, Begin (Change "or books"));
   (slow, Begin (PressKey Sample9.enter));
   (down, Settle 1);
   (slow, Settle 0);
   (slow, Settle 0)].
Definition page : Page := {| world := Sample9.page; pending := [] |}.
End Sample10.

(** * Properties *)

(** Unfolds one handler run down to the worlds it passes through. *)
Ltac run :=
  repeat progress
    (unfold mbind, mret, M_bind, M_ret, Run.bind, Run.ret, Run.try_catch,
       Run.try_finally, Run.throw, read, setMessages, setInput, setLoading,
       setSessionId, Date_now, new_Date, Math_random, confirm, console_error,
       fetch, response_json, process_env_Backend_URL, prop, or_else,
       localStorage_.getItem, localStorage_.setItem, supabase_await,
       new_session_id;
     cbn [fst snd messages input loading sessionId localStorage chat_messages
          queries requests console ticks draws data error Store.exec]).

(** ** The send sequence *)

Section SendRuns.

Variable env : Env.
Variable w : World.

Lemma handleSend_guard :
  JS.trim (input w) = "" ∨ sessionId w = "" → handleSend env w = (Normal (), w).
Proof.
  intros H. unfold handleSend. run.
  destruct H as [H | H]; rewrite H.
  - reflexivity.
  - rewrite orb_true_r. reflexivity.
Qed.

Lemma sendable_guard :
  sendable w →
  bool_decide (JS.trim (input w) = "") || bool_decide (sessionId w = "") = false.
Proof.
  intros [Hi Hs]. rewrite !bool_decide_eq_false_2 by done. reflexivity.
Qed.

Ltac send_branch Hs Ha :=
  unfold handleSend; run;
  rewrite (sendable_guard Hs); unfold backend_answer in Ha; rewrite Ha.

Ltac send_done :=
  cbn; split; [done | by rewrite <- app_assoc].

Lemma handleSend_status r :
  sendable w → backend_answer env w = Normal r → ok r = false →
  (handleSend env w).1 = Normal () ∧
  messages (handleSend env w).2
    = messages w ++ [userMessage env w; statusMessage env w r].
Proof. intros Hs Ha Hok. send_branch Hs Ha. rewrite Hok. send_done. Qed.

Lemma handleSend_rejected t :
  sendable w → backend_answer env w = Throw t →
  (handleSend env w).1 = Normal () ∧
  messages (handleSend env w).2
    = messages w ++ [userMessage env w; caughtMessage env w 0 t].
Proof. intros Hs Ha. send_branch Hs Ha. send_done. Qed.

Lemma handleSend_unparsed r t :
  sendable w → backend_answer env w = Normal r → ok r = true → json r = Throw t →
  (handleSend env w).1 = Normal () ∧
  messages (handleSend env w).2
    = messages w ++ [userMessage env w; caughtMessage env w 0 t].
Proof. intros Hs Ha Hok Hj. send_branch Hs Ha. rewrite Hok, Hj. send_done. Qed.

Lemma handleSend_null_body r :
  sendable w → backend_answer env w = Normal r → ok r = true →
  json r = Normal JNull →
  (handleSend env w).1 = Normal () ∧
  messages (handleSend env w).2
    = messages w ++ [userMessage env w; caughtMessage env w 1 null_read].
Proof. intros Hs Ha Hok Hj. send_branch Hs Ha. rewrite Hok, Hj. send_done. Qed.

Lemma handleSend_reply r d :
  sendable w → backend_answer env w = Normal r → ok r = true →
  json r = Normal d → d ≠ JNull →
  (handleSend env w).1 = Normal () ∧
  messages (handleSend env w).2
    = messages w ++ [userMessage env w; replyMessage env w d].
Proof.
  intros Hs Ha Hok Hj Hd. send_branch Hs Ha. rewrite Hok, Hj.
  unfold replyMessage, truthy_field, field.
  generalize (JSONValue.stringify d). intros whole.
  destruct d as [| b | n | s | items | props]; [done | | | | |]; cbn.
  1-4: split; [done | by rewrite <- app_assoc].
  destruct (JSONValue.lookup_prop "reply" props) as [x|];
    [destruct (JSONValue.truthy x)|];
    (destruct (JSONValue.lookup_prop "message" props) as [y|];
       [destruct (JSONValue.truthy y)|]);
    (destruct (JSONValue.lookup_prop "chips" props) as [z|];
       [destruct (JSONValue.truthy z)|]);
    send_done.
Qed.

(** Every run of the handler falls under one of the cases above. *)
Lemma send_cases :
  (JS.trim (input w) = "" ∨ sessionId w = "") ∨
  sendable w ∧
  ((∃ t, backend_answer env w = Throw t) ∨
   ∃ r, backend_answer env w = Normal r ∧
        (ok r = false ∨
         ok r = true ∧
         ((∃ t, json r = Throw t) ∨ json r = Normal JNull ∨
          ∃ d, json r = Normal d ∧ d ≠ JNull))).
Proof.
  destruct (decide (JS.trim (input w) = "")) as [Hi | Hi]; [by left; left |].
  destruct (decide (sessionId w = "")) as [Hs | Hs]; [by left; right |].
  right. split; [done |].
  destruct (backend_answer env w) as [r | t]; [right; exists r | left; by exists t].
  split; [done |].
  destruct (ok r); [right; split; [done |] | by left].
  destruct (json r) as [d | t]; [| left; by exists t].
  right. destruct d; [by left | right; eexists; split; [done | discriminate] ..].
Qed.

(** The handler completes normally and only ever appends to the list. *)
Lemma handleSend_appends :
  (handleSend env w).1 = Normal () ∧
  ∃ appended, messages (handleSend env w).2 = messages w ++ appended.
Proof.
  destruct send_cases as [Hg | [Hs [[t Ha] | [r [Ha [Hok | [Hok Hj]]]]]]].
  - rewrite (handleSend_guard Hg). split; [done |]. exists []. by rewrite app_nil_r.
  - destruct (handleSend_rejected t Hs Ha) as [-> ->]. eauto.
  - destruct (handleSend_status r Hs Ha Hok) as [-> ->]. eauto.
  - destruct Hj as [[t Hj] | [Hj | [d [Hj Hd]]]].
    + destruct (handleSend_unparsed r t Hs Ha Hok Hj) as [-> ->]. eauto.
    + destruct (handleSend_null_body r Hs Ha Hok Hj) as [-> ->]. eauto.
    + destruct (handleSend_reply r d Hs Ha Hok Hj Hd) as [-> ->]. eauto.
Qed.

End SendRuns.

Lemma elem_of_pair {A} (a b x : A) : x ∈ [a; b] → x = a ∨ x = b.
Proof. rewrite !elem_of_cons, elem_of_nil. tauto. Qed.

(** The trimmed form is empty exactly for the texts made of white space
    only, the empty text among them. *)
Lemma trim_empty_iff (s : string) :
  JS.trim s = "" ↔ Forall (λ c, JS.is_white c = true) (String.list_ascii_of_string s).
Proof.
  unfold JS.trim. induction s as [|c s IH]; cbn [JS.trimStart].
  - split; [constructor | done].
  - destruct (JS.is_white c) eqn:Hc.
    + rewrite IH. split; [by constructor | by inversion 1].
    + split.
      * cbn [JS.trimEnd]. rewrite Hc. by destruct (JS.trimEnd s).
      * inversion 1; congruence.
Qed.

(** C9.  When the trimmed input is empty, a send changes nothing: the world
    after it (messages, input field, loading flag, requests issued) is the
    world before it. *)
Theorem blank_input_sends_nothing (env : Env) (w : World) :
  JS.trim (input w) = "" →
  let w' := (handleSend env w).2 in
  w' = w ∧ messages w' = messages w ∧ input w' = input w ∧
  loading w' = loading w ∧ requests w' = requests w.
Proof.
  intros H. rewrite (handleSend_guard env w (or_introl H)). cbn. done.
Qed.

Lemma blank_input_sends_nothing_witness :
  (handleSend (Sample.replying JNull) (Sample.typed "   ")).2
  = Sample.typed "   ".
Proof.
  apply (blank_input_sends_nothing (Sample.replying JNull) (Sample.typed "   ")).
  reflexivity.
Defined.

(** C2.  A send never completes by throwing.  When the backend answers with
    a non-success status, a bot message reading Error: and the status text
    is appended after the user message; when the fetch is rejected or the
    body does not parse, a bot message reading Error: and the message of
    the Error thrown is appended, or Error: Unknown error when the thrown
    value is no Error. *)
Theorem send_failures_are_reported (env : Env) (w : World) :
  (handleSend env w).1 = Normal () ∧
  (sendable w →
   (∀ r, backend_answer env w = Normal r → ok r = false →
      ∃ u m, messages (handleSend env w).2 = messages w ++ [u; m] ∧
             Message.sender m = bot ∧
             Message.text m = JString ("Error: " +:+ statusText r)) ∧
   (∀ t, failed_with env w t →
      ∃ u m, messages (handleSend env w).2 = messages w ++ [u; m] ∧
             Message.sender m = bot ∧
             (∀ name message, t = ErrorObject name message →
                Message.text m = JString ("Error: " +:+ message)) ∧
             (∀ v, t = ThrownValue v →
                Message.text m = JString "Error: Unknown error"))).
Proof.
  split; [apply handleSend_appends |].
  intros Hs. split.
  - intros r Ha Hok. destruct (handleSend_status env w r Hs Ha Hok) as [_ ->].
    by eexists _, _.
  - intros t Hf.
    assert (messages (handleSend env w).2
            = messages w ++ [userMessage env w; caughtMessage env w 0 t]) as ->.
    { destruct Hf as [Ha | (r & Ha & Hok & Hj)].
      - apply (handleSend_rejected env w t Hs Ha).
      - apply (handleSend_unparsed env w r t Hs Ha Hok Hj). }
    eexists _, _. split; [done |]. split; [done |].
    split; [intros name message -> | intros v ->]; reflexivity.
Qed.

Lemma send_failures_are_reported_witness :
  Message.text <$> last (messages
    (handleSend
       (Sample.env (Normal {| ok := false; statusText := "Internal Server Error";
                              json := Throw (ThrownValue JNull) |}) [])
       (Sample.typed "hello")).2)
  = Some (JString "Error: Internal Server Error").
Proof.
  destruct (send_failures_are_reported
              (Sample.env (Normal {| ok := false; statusText := "Internal Server Error";
                                     json := Throw (ThrownValue JNull) |}) [])
              (Sample.typed "hello")) as [_ H].
  destruct H as [H _]; [split; discriminate |].
  destruct (H _ eq_refl eq_refl) as (u & m & -> & _ & Ht).
  cbn. by rewrite Ht.
Defined.

(** C10.  Whatever a send appends, a message that carries chips is a bot
    message built from a success answer whose body parsed; when the send
    did not get that far (non-success status, rejected fetch, unparsed or
    null body) no appended message has a chips field. *)
Theorem chips_only_on_success (env : Env) (w : World) :
  ∃ appended,
    messages (handleSend env w).2 = messages w ++ appended ∧
    (∀ m, m ∈ appended → Message.chips m ≠ None →
          Message.sender m = bot ∧ replied env w) ∧
    (¬ replied env w → ∀ m, m ∈ appended → Message.chips m = None).
Proof.
  assert (∃ appended,
            messages (handleSend env w).2 = messages w ++ appended ∧
            (∀ m, m ∈ appended → Message.chips m ≠ None →
                  Message.sender m = bot ∧ replied env w)) as (l & Hl & Hc).
  { destruct (send_cases env w)
      as [Hg | [Hs [[t Ha] | [r [Ha [Hok | [Hok Hj]]]]]]].
    - rewrite (handleSend_guard env w Hg). exists []. cbn.
      split; [by rewrite app_nil_r |]. intros m Hm. by apply elem_of_nil in Hm.
    - destruct (handleSend_rejected env w t Hs Ha) as [_ ->].
      eexists. split; [done |].
      intros m Hm Hchips. by destruct (elem_of_pair _ _ _ Hm) as [-> | ->].
    - destruct (handleSend_status env w r Hs Ha Hok) as [_ ->].
      eexists. split; [done |].
      intros m Hm Hchips. by destruct (elem_of_pair _ _ _ Hm) as [-> | ->].
    - destruct Hj as [[t Hj] | [Hj | [d [Hj Hd]]]].
      + destruct (handleSend_unparsed env w r t Hs Ha Hok Hj) as [_ ->].
        eexists. split; [done |].
        intros m Hm Hchips. by destruct (elem_of_pair _ _ _ Hm) as [-> | ->].
      + destruct (handleSend_null_body env w r Hs Ha Hok Hj) as [_ ->].
        eexists. split; [done |].
        intros m Hm Hchips. by destruct (elem_of_pair _ _ _ Hm) as [-> | ->].
      + destruct (handleSend_reply env w r d Hs Ha Hok Hj Hd) as [_ ->].
        eexists. split; [done |].
        intros m Hm Hchips. destruct (elem_of_pair _ _ _ Hm) as [-> | ->]; [done |].
        split; [done |]. by exists r, d. }
  exists l. split; [done |]. split; [done |].
  intros Hn m Hm. destruct (Message.chips m) eqn:Hchips; [| done].
  destruct Hn. apply (Hc m Hm). by rewrite Hchips.
Qed.

Lemma chips_only_on_success_witness :
  ∃ appended,
    messages (handleSend
                (Sample.env (Throw (ErrorObject "TypeError" "Failed to fetch")) [])
                (Sample.typed "hello")).2 = appended ∧
    Forall (λ m, Message.chips m = None) appended.
Proof.
  destruct (chips_only_on_success
              (Sample.env (Throw (ErrorObject "TypeError" "Failed to fetch")) [])
              (Sample.typed "hello")) as (l & Hl & _ & Hnone).
  exists l. split; [exact Hl |].
  apply Forall_forall. intros m Hm. apply Hnone; [| done].
  intros (r & d & Ha & _). discriminate Ha.
Defined.

(** For the body with an empty reply and the message hey, the presence rule
    gives the empty text and the code appends hey.  For the body null the
    presence rule gives the text null and the code appends the placeholder
    of the catch block. *)
Lemma reply_chosen_by_presence_counterexample :
  let d := JObject [("reply", JString ""); ("message", JString "hey")] in
  Message.text <$> last (messages
    (handleSend (Sample.replying d) (Sample.typed "hello")).2)
  = Some (JString "hey") ∧
  text_by_presence d = JString "" ∧
  Message.text <$> last (messages
    (handleSend (Sample.replying JNull) (Sample.typed "hello")).2)
  = Some (JString "Error: Cannot read properties of null (reading 'reply')") ∧
  text_by_presence JNull = JString "null" ∧
  ¬ reply_chosen_by_presence.
Proof.
  split; [vm_compute; reflexivity |]. split; [reflexivity |].
  split; [vm_compute; reflexivity |]. split; [reflexivity |].
  intros H.
  destruct (H (Sample.replying (JObject [("reply", JString ""); ("message", JString "hey")]))
              (Sample.typed "hello") _ _
              ltac:(split; discriminate) eq_refl eq_refl eq_refl)
    as (u & m & Hm & _ & Ht & _).
  vm_compute in Hm. injection Hm as _ <-. discriminate Ht.
Qed.

(** C1, amended.  On a success answer whose body is not null, the appended
    bot message has for text the reply field when it is truthy (a non-empty
    string), else the message field when it is truthy, else the
    stringification of the whole body; and for chips the chips field when it
    is truthy (any array is), else the empty array.  For the body with the
    only field reply = hi the text is hi and the chips are empty; for the
    body with message = hey and chips = [a, b] the text is hey and the chips
    are [a, b]. *)
Theorem reply_text_and_chips (env : Env) (w : World) (r : Response) (d : JSON) :
  sendable w → backend_answer env w = Normal r → ok r = true →
  json r = Normal d → d ≠ JNull →
  ∃ u m,
    messages (handleSend env w).2 = messages w ++ [u; m] ∧
    Message.sender m = bot ∧
    (∀ v, field d "reply" = Some v → JSONValue.truthy v = true →
          Message.text m = v) ∧
    (truthy_field d "reply" = None →
     ∀ v, field d "message" = Some v → JSONValue.truthy v = true →
          Message.text m = v) ∧
    (truthy_field d "reply" = None → truthy_field d "message" = None →
     Message.text m = JString (JSONValue.stringify d)) ∧
    (∀ v, field d "chips" = Some v → JSONValue.truthy v = true →
          Message.chips m = Some v) ∧
    (truthy_field d "chips" = None → Message.chips m = Some (JArray [])) ∧
    (d = JObject [("reply", JString "hi")] →
     Message.text m = JString "hi" ∧ Message.chips m = Some (JArray [])) ∧
    (d = JObject [("message", JString "hey");
                  ("chips", JArray [JString "a"; JString "b"])] →
     Message.text m = JString "hey" ∧
     Message.chips m = Some (JArray [JString "a"; JString "b"])).
Proof.
  intros Hs Ha Hok Hj Hd.
  destruct (handleSend_reply env w r d Hs Ha Hok Hj Hd) as [_ ->].
  eexists _, _. split; [done |]. split; [done |].
  cbn [Message.text Message.chips replyMessage].
  unfold truthy_field.
  split; [intros v -> ->; reflexivity |].
  split; [intros Hr v Hv Ht; rewrite Hr, Hv, Ht; reflexivity |].
  split; [intros -> ->; reflexivity |].
  split; [intros v -> ->; reflexivity |].
  split; [intros ->; reflexivity |].
  split; intros ->; split; reflexivity.
Qed.

Lemma reply_text_and_chips_witness :
  ∃ m, last (messages
         (handleSend (Sample.replying (JObject [("reply", JString "hi")]))
                     (Sample.typed "hello")).2) = Some m ∧
       Message.sender m = bot ∧ Message.text m = JString "hi" ∧
       Message.chips m = Some (JArray []).
Proof.
  destruct (reply_text_and_chips
              (Sample.replying (JObject [("reply", JString "hi")]))
              (Sample.typed "hello")
              {| ok := true; statusText := "OK";
                 json := Normal (JObject [("reply", JString "hi")]) |}
              (JObject [("reply", JString "hi")]))
    as (u & m & -> & Hbot & _ & _ & _ & _ & _ & Hhi & _);
    [split; discriminate | reflexivity | reflexivity | reflexivity | discriminate |].
  exists m. destruct (Hhi eq_refl) as [Ht Hc]. by cbn.
Defined.

(** ** Session identifiers *)

Section SessionRuns.

Variable env : Env.
Variable w : World.

Lemma initializeSession_stored s :
  localStorage w !! session_key = Some s → s ≠ "" →
  (initializeSession env w).1 = Normal () ∧
  sessionId (initializeSession env w).2 = s ∧
  localStorage (initializeSession env w).2 = localStorage w ∧
  ticks (initializeSession env w).2 = ticks w ∧
  draws (initializeSession env w).2 = draws w.
Proof.
  intros Hl Hs. unfold session_key in Hl. unfold initializeSession. run.
  rewrite Hl. destruct (decide (s = "")) as [|_]; [done |].
  destruct (service env) as [server_time returning | err | t]; run; [| done | done].
  by destruct (Store.select_history s (chat_messages w)).
Qed.

Lemma initializeSession_fresh :
  stored_session w = None →
  (initializeSession env w).1 = Normal () ∧
  sessionId (initializeSession env w).2 = fresh_session env w ∧
  localStorage (initializeSession env w).2
    = <[session_key := fresh_session env w]> (localStorage w).
Proof.
  unfold stored_session, session_key, fresh_session. intros Hl.
  unfold initializeSession. run.
  destruct (localStorage w !! "chatSessionId") as [s|];
    [destruct (decide (s = "")) as [_|]; [| done] |];
    (destruct (service env) as [server_time returning | err | t]; run; [| done | done];
     by destruct (Store.select_history _ (chat_messages w))).
Qed.

Lemma handleClearChat_confirmed :
  confirms env = true →
  handleClearChat env w
  = (Normal (),
     {| messages := []; input := ""; loading := loading w;
        sessionId := fresh_session env w;
        localStorage := <[session_key := fresh_session env w]> (localStorage w);
        chat_messages := chat_messages w; queries := queries w;
        requests := requests w; console := console w;
        ticks := S (ticks w); draws := S (draws w) |}).
Proof. intros Hc. unfold handleClearChat. run. by rewrite Hc. Qed.

Lemma handleClearChat_declined :
  confirms env = false → handleClearChat env w = (Normal (), w).
Proof. intros Hc. unfold handleClearChat. run. by rewrite Hc. Qed.

End SessionRuns.

(** *** The shape of a generated identifier *)

Lemma substring_take (n : nat) (l : list ascii) :
  String.substring 0 n (String.string_of_list_ascii l)
  = String.string_of_list_ascii (take n l).
Proof.
  revert l. induction n as [|n IH]; intros [|c l]; cbn; try done.
  by rewrite IH.
Qed.

Lemma length_string_of_list (l : list ascii) :
  String.length (String.string_of_list_ascii l) = length l.
Proof. induction l as [|c l IH]; cbn; [done | by rewrite IH]. Qed.

(** The suffix is the first nine fraction digits, fewer when the rendering
    is shorter. *)
Lemma suffix_take (fraction : list N) :
  JS.substr 2 9 (toString36 fraction)
  = String.string_of_list_ascii (map digit36 (take 9 fraction)).
Proof.
  destruct fraction as [|d rest]; [done |].
  unfold JS.substr, toString36.
  change ("0." +:+ ?s) with (String "0" (String "." s)).
  change (String.substring 2 9 (String ?a (String ?b ?s)))
    with (String.substring 0 9 s).
  by rewrite substring_take, List.firstn_map.
Qed.

Lemma digit36_base36 (d : N) : is_base36 (digit36 d) = true.
Proof.
  unfold digit36.
  assert (N.to_nat (d mod 36) < 36)%nat as Hlt.
  { pose proof (N.mod_upper_bound d 36). lia. }
  revert Hlt. generalize (N.to_nat (d mod 36)). intros k Hk.
  do 36 (destruct k as [|k]; [reflexivity |]). lia.
Qed.

Lemma uint_no_underscore (d : Decimal.uint) :
  Forall (λ c, c ≠ "_"%char)
    (String.list_ascii_of_string (NilEmpty.string_of_uint d)).
Proof. induction d; cbn; constructor; (discriminate || assumption). Qed.

Lemma Number_toString_no_underscore (n : Z) :
  Forall (λ c, c ≠ "_"%char) (String.list_ascii_of_string (JS.Number_toString n)).
Proof.
  unfold JS.Number_toString, NilZero.string_of_int, NilZero.string_of_uint.
  destruct (Z.to_int n) as [d | d]; destruct d eqn:Hd;
    try (constructor; [discriminate |]);
    first [ by repeat constructor
          | rewrite <- Hd; apply uint_no_underscore
          | idtac ].
  all: try (constructor; [discriminate |]); try apply uint_no_underscore.
Qed.

Lemma Number_toString_inj (a b : Z) :
  JS.Number_toString a = JS.Number_toString b → a = b.
Proof.
  unfold JS.Number_toString. intros H.
  assert (∀ z, NilZero.int_of_string (NilZero.string_of_int (Z.to_int z))
               = Some (Z.to_int z)) as Hisi.
  { intros z. apply NilZero.isi; destruct z; cbn; try discriminate;
      intros [= Hn]; by apply DecimalPos.Unsigned.to_uint_nonnil in Hn. }
  apply DecimalZ.to_int_inj.
  pose proof (Hisi a) as Ha. rewrite H, Hisi in Ha. by injection Ha.
Qed.

(** Two texts cut at their first underscore. *)
Lemma cut_at_underscore (a b s t : string) :
  Forall (λ c, c ≠ "_"%char) (String.list_ascii_of_string a) →
  Forall (λ c, c ≠ "_"%char) (String.list_ascii_of_string b) →
  a +:+ String "_" s = b +:+ String "_" t → a = b ∧ s = t.
Proof.
  revert b. induction a as [|c a IH]; intros [|c' b] Ha Hb; cbn; intros H.
  - by injection H.
  - injection H as <- _. by inversion Hb.
  - injection H as -> _. by inversion Ha.
  - injection H as -> H. inversion Ha; inversion Hb; subst.
    destruct (IH b) as [-> ->]; done.
Qed.

(** The identifier determines the clock reading and the suffix it was built
    from. *)
Lemma session_id_of_inj (t0 t1 : Z) (r0 r1 : list N) :
  session_id_of t0 r0 = session_id_of t1 r1 →
  t0 = t1 ∧ JS.substr 2 9 (toString36 r0) = JS.substr 2 9 (toString36 r1).
Proof.
  unfold session_id_of. intros H.
  change ("session_" +:+ ?x) with
    (String "s" (String "e" (String "s" (String "s" (String "i" (String "o"
       (String "n" (String "_" x)))))))) in H.
  injection H as H.
  change ("_" +:+ ?x) with (String "_" x) in H.
  apply cut_at_underscore in H as [Ht Hs]; try apply Number_toString_no_underscore.
  split; [by apply Number_toString_inj | done].
Qed.

Lemma generated_ids_have_nine_digits_counterexample :
  sessionId (initializeSession Sample5.env Sample5.first_visit).2
  = "session_1700000000000_i" ∧
  ¬ generated_ids_have_nine_digits.
Proof.
  split; [vm_compute; reflexivity |].
  intros H. destruct (H Sample5.env Sample5.first_visit) as [Hinit _].
  destruct (Hinit eq_refl) as (suffix & Hid & Hlen & _).
  vm_compute in Hid. injection Hid as <-. discriminate Hlen.
Qed.

(** C5, amended.  An identifier generated on a first visit (nothing kept
    from the storage) or on a confirmed reset is session_, the clock
    reading, an underscore and a suffix made of the first nine base-36
    fraction digits of the random number: at most nine characters, all of
    them base-36 digits, exactly nine when the rendering has that many; the
    identifier is the one persisted. *)
Theorem generated_session_id_format (env : Env) (w : World) :
  let now := clock env (ticks w) in
  let fraction := random env (draws w) in
  let suffix := String.string_of_list_ascii (map digit36 (take 9 fraction)) in
  let id := "session_" +:+ JS.Number_toString now +:+ "_" +:+ suffix in
  (stored_session w = None →
   sessionId (initializeSession env w).2 = id ∧
   localStorage (initializeSession env w).2 !! session_key = Some id) ∧
  (confirms env = true →
   sessionId (handleClearChat env w).2 = id ∧
   localStorage (handleClearChat env w).2 !! session_key = Some id) ∧
  String.length suffix = Nat.min 9 (length fraction) ∧
  (String.length suffix ≤ 9)%nat ∧
  (9 ≤ length fraction → String.length suffix = 9)%nat ∧
  Forall (λ c, is_base36 c = true) (String.list_ascii_of_string suffix).
Proof.
  intros now fraction suffix id.
  assert (fresh_session env w = id) as Hid.
  { unfold fresh_session, session_id_of. by rewrite suffix_take. }
  assert (String.length suffix = Nat.min 9 (length fraction)) as Hlen.
  { unfold suffix. by rewrite length_string_of_list, length_map, length_take. }
  split; [| split; [| split; [exact Hlen | split; [lia | split; [lia |]]]]].
  - intros Hs. destruct (initializeSession_fresh env w Hs) as (_ & -> & ->).
    by rewrite lookup_insert_eq, Hid.
  - intros Hc. rewrite (handleClearChat_confirmed env w Hc). cbn.
    by rewrite lookup_insert_eq, Hid.
  - unfold suffix. rewrite String.list_ascii_of_string_of_list_ascii.
    apply Forall_forall. intros c Hc.
    apply list_elem_of_In, in_map_iff in Hc as (d & <- & _).
    apply digit36_base36.
Qed.

Lemma generated_session_id_format_witness :
  sessionId (handleClearChat
               (Sample.env (Throw (ThrownValue JNull))
                  [10; 11; 12; 13; 14; 15; 16; 17; 18; 19; 20]%N)
               (Sample.typed "hello")).2
  = "session_1700000000000_abcdefghi".
Proof.
  destruct (generated_session_id_format
              (Sample.env (Throw (ThrownValue JNull))
                 [10; 11; 12; 13; 14; 15; 16; 17; 18; 19; 20]%N)
              (Sample.typed "hello")) as (_ & Hclear & _).
  destruct (Hclear eq_refl) as [-> _]. vm_compute. reflexivity.
Defined.

Lemma clear_chat_always_changes_session_counterexample :
  sessionId (handleClearChat Sample4.env Sample4.page).2 = sessionId Sample4.page ∧
  ¬ clear_chat_always_changes_session.
Proof.
  split; [vm_compute; reflexivity |].
  intros H. destruct (H Sample4.env Sample4.page eq_refl) as (_ & _ & Hne & _).
  apply Hne. vm_compute. reflexivity.
Qed.

(** C4, amended.  A confirmed clear-chat empties the message list, clears
    the input, and sets and persists the identifier generated from the
    clock reading and the random number, in place of the previous one; it
    sends nothing to the store, whose rows stay as they were.  No collision
    check is made: the new identifier differs from a previous one that was
    generated at another clock reading or with another suffix. *)
Theorem clear_chat_resets_session (env : Env) (w : World) :
  confirms env = true →
  let w' := (handleClearChat env w).2 in
  let id := session_id_of (clock env (ticks w)) (random env (draws w)) in
  (handleClearChat env w).1 = Normal () ∧
  messages w' = [] ∧ input w' = "" ∧
  sessionId w' = id ∧
  localStorage w' = <[session_key := id]> (localStorage w) ∧
  chat_messages w' = chat_messages w ∧ queries w' = queries w ∧
  (∀ t0 r0, sessionId w = session_id_of t0 r0 →
            t0 ≠ clock env (ticks w) ∨
            JS.substr 2 9 (toString36 r0)
              ≠ JS.substr 2 9 (toString36 (random env (draws w))) →
            sessionId w' ≠ sessionId w).
Proof.
  intros Hc. rewrite (handleClearChat_confirmed env w Hc). cbn.
  repeat (split; [done |]).
  intros t0 r0 Hprev Hdiff Heq. unfold fresh_session in Heq.
  rewrite Hprev in Heq. apply session_id_of_inj in Heq as [Ht Hs].
  destruct Hdiff as [Hd | Hd]; by apply Hd.
Qed.

Lemma clear_chat_resets_session_witness :
  let w' := (handleClearChat Sample4.env (Sample.typed "hello")).2 in
  messages w' = [] ∧ input w' = "" ∧
  sessionId w' = "session_1700000000000_abcdefghi" ∧
  chat_messages w' = [].
Proof.
  destruct (clear_chat_resets_session Sample4.env (Sample.typed "hello") eq_refl)
    as (_ & Hm & Hi & Hs & _ & Hrows & _).
  cbn zeta. rewrite Hm, Hi, Hs, Hrows. vm_compute. done.
Defined.

(** The empty string is no identifier: the test of line 40 reads it as it
    reads an absent entry, and a mount writes a generated identifier in its
    place.  The page itself never stores it. *)
Lemma empty_stored_string_is_replaced :
  localStorage Sample6.page !! session_key = Some "" ∧
  sessionId (initializeSession Sample4.env Sample6.page).2
  = "session_1700000000000_abcdefghi" ∧
  localStorage (initializeSession Sample4.env Sample6.page).2 !! session_key
  = Some "session_1700000000000_abcdefghi".
Proof.
  split; [reflexivity |]. split; vm_compute; reflexivity.
Qed.

Lemma mounts_stored (s : string) (envs : list Env) (w : World) :
  localStorage w !! session_key = Some s → s ≠ "" →
  localStorage (mounts envs w) = localStorage w ∧
  (envs ≠ [] → sessionId (mounts envs w) = s).
Proof.
  intros Hl Hs. revert w Hl.
  induction envs as [|env envs IH]; intros w Hl; [done |].
  destruct (initializeSession_stored env w s Hl Hs) as (_ & Hid & Hst & _).
  unfold mounts. cbn [foldl]. fold (mounts envs (initializeSession env w).2).
  destruct (IH (initializeSession env w).2) as [IHl IHs]; [by rewrite Hst |].
  split; [by rewrite IHl |]. intros _.
  destruct envs as [|env' envs']; [exact Hid | by apply IHs].
Qed.

(** A non-empty stored identifier is taken as the session and left in
    place, by a mount and by every later one. *)
Lemma nonempty_stored_session_is_stable (env : Env) (w : World) (s : string)
    (later : list Env) :
  localStorage w !! session_key = Some s → s ≠ "" →
  let w' := (initializeSession env w).2 in
  sessionId w' = s ∧ localStorage w' = localStorage w ∧
  ticks w' = ticks w ∧ draws w' = draws w ∧
  sessionId (mounts later w') = s ∧
  localStorage (mounts later w') = localStorage w.
Proof.
  intros Hl Hs.
  destruct (initializeSession_stored env w s Hl Hs) as (_ & Hid & Hst & Ht & Hd).
  cbn zeta. repeat (split; [done |]).
  destruct (mounts_stored s later (initializeSession env w).2) as [Ml Ms];
    [by rewrite Hst | done |].
  split; [| by rewrite Ml].
  destruct later as [|e l]; [exact Hid | by apply Ms].
Qed.

(** An identifier the page generated is kept by every later mount. *)
Lemma created_session_is_stable (env : Env) (w : World) (later : list Env) :
  let w' := (initializeSession env w).2 in
  sessionId (mounts later w') = sessionId w' ∧
  localStorage (mounts later w') = localStorage w'.
Proof.
  cbn zeta.
  assert (localStorage (initializeSession env w).2 !! session_key
          = Some (sessionId (initializeSession env w).2) ∧
          sessionId (initializeSession env w).2 ≠ "") as [Hl Hs].
  { destruct (stored_session w) as [s|] eqn:Hst.
    - unfold stored_session in Hst.
      destruct (localStorage w !! session_key) as [s'|] eqn:Hl; [| done].
      destruct (decide (s' = "")) as [|Hne]; [done |]. injection Hst as ->.
      destruct (initializeSession_stored env w s Hl Hne) as (_ & -> & -> & _).
      done.
    - destruct (initializeSession_fresh env w Hst) as (_ & -> & ->).
      split; [by rewrite lookup_insert_eq | discriminate]. }
  destruct (mounts_stored _ later _ Hl Hs) as [Ml Ms].
  split; [| done]. destruct later as [|e l]; [done | by apply Ms].
Qed.

(** ** The store and the gateway *)

#[global] Instance created_le_total : Total Store.created_le.
Proof.
  intros a b. unfold Store.created_le.
  destruct (ChatMessage.created_at a), (ChatMessage.created_at b); try tauto. lia.
Qed.

#[global] Instance created_le_trans : Transitive Store.created_le.
Proof.
  intros a b c. unfold Store.created_le.
  destruct (ChatMessage.created_at a), (ChatMessage.created_at b),
    (ChatMessage.created_at c); try tauto. lia.
Qed.

(** The history of a session: its rows, each once, by ascending timestamp. *)
Lemma select_history_sorted (session : string) (table : list ChatMessage.t) :
  StronglySorted Store.created_le (Store.select_history session table) ∧
  Store.select_history session table
    ≡ₚ filter (λ r, ChatMessage.session_id r = session) table.
Proof.
  split.
  - apply StronglySorted_merge_sort; apply _.
  - apply merge_sort_Permutation.
Qed.

Section Mount.

Variable env : Env.
Variable w : World.

(** What a mount leaves in the message list, by the answer of the store. *)
Lemma initializeSession_messages :
  messages (initializeSession env w).2
  = match service env with
    | Healthy _ _ =>
        match Store.select_history (sessionId (initializeSession env w).2)
                (chat_messages w) with
        | [] => messages w
        | rows => map loaded_message rows
        end
    | _ => messages w
    end.
Proof.
  unfold initializeSession. run.
  destruct (localStorage w !! "chatSessionId") as [s|];
    [destruct (decide (s = "")) |];
    (destruct (service env) as [server_time returning | err | t]; run;
     [| done | done]).
  all: destruct (Store.select_history _ (chat_messages w)) eqn:E; cbn;
    by rewrite E.
Qed.

End Mount.

(** C3.  On mount against a store that answers, when the history of the
    resolved session is not empty, the view list is that history taken
    element by element in ascending created_at order: the text is the
    content, the sender is user for the role user and bot for any other
    role, and no restored message has chips. *)
Theorem history_is_restored (env : Env) (w : World) (server_time : Z)
    (returning : bool) :
  service env = Healthy server_time returning →
  let w' := (initializeSession env w).2 in
  let history := Store.select_history (sessionId w') (chat_messages w) in
  history ≠ [] →
  StronglySorted Store.created_le history ∧
  history ≡ₚ filter (λ r, ChatMessage.session_id r = sessionId w') (chat_messages w) ∧
  Forall2 (λ row m,
             Message.text m = JString (ChatMessage.content row) ∧
             (ChatMessage.role row = "user" → Message.sender m = user) ∧
             (ChatMessage.role row ≠ "user" → Message.sender m = bot) ∧
             Message.chips m = None ∧
             Message.id m = ChatMessage.id row ∧
             Message.timestamp m = ChatMessage.created_at row)
          history (messages w').
Proof.
  intros Hsvc. cbn zeta. intros Hne.
  pose proof (initializeSession_messages env w) as Hm. rewrite Hsvc in Hm.
  destruct (select_history_sorted (sessionId (initializeSession env w).2)
              (chat_messages w)) as [Hs Hp].
  split; [exact Hs |]. split; [exact Hp |].
  rewrite Hm. clear Hm Hs Hp. revert Hne.
  generalize (Store.select_history (sessionId (initializeSession env w).2)
                (chat_messages w)).
  intros history Hne.
  destruct history as [|first rest]; [done |]. clear.
  generalize (first :: rest). intros history.
  induction history as [|row rows IH]; cbn; constructor; [| exact IH].
  unfold loaded_message. cbn.
  destruct (decide (ChatMessage.role row = "user")); done.
Qed.

Lemma history_is_restored_witness :
  map (λ m, (Message.sender m, Message.text m, Message.chips m))
    (messages (initializeSession Sample4.env Sample3.page).2)
  = [(user, JString "hi", None); (bot, JString "Hello!", None);
     (bot, JString "bye", None)].
Proof.
  destruct (history_is_restored Sample4.env Sample3.page 1700000000000 false eq_refl)
    as (_ & _ & H); [vm_compute; discriminate |].
  vm_compute. reflexivity.
Defined.

Section Gateway.

Variable env : Env.
Variable w : World.

Lemma getHistory_run (sessionId : string) :
  (getHistory sessionId env w).1
  = Normal match service env with
           | Healthy _ _ => Some (Store.select_history sessionId (chat_messages w))
           | _ => None
           end ∧
  queries (getHistory sessionId env w).2 = queries w ++ [SelectHistory sessionId] ∧
  chat_messages (getHistory sessionId env w).2 = chat_messages w.
Proof.
  unfold getHistory. run.
  by destruct (service env) as [server_time returning | err | t].
Qed.

Lemma saveMessage_run (sessionId : string) (role : Sender) (content : string) :
  let q := InsertRows [new_row sessionId role content] in
  (saveMessage sessionId role content env w).1
  = Normal match service env with
           | Healthy server_time returning =>
               (Store.exec server_time returning q (chat_messages w)).2
           | _ => None
           end ∧
  queries (saveMessage sessionId role content env w).2 = queries w ++ [q] ∧
  chat_messages (saveMessage sessionId role content env w).2
  = match service env with
    | Healthy server_time returning =>
        (Store.exec server_time returning q (chat_messages w)).1
    | _ => chat_messages w
    end.
Proof.
  unfold saveMessage. run.
  destruct (service env) as [server_time returning | err | t]; [| done | done].
  by destruct returning.
Qed.

End Gateway.

(** C7.  Neither gateway operation completes by throwing.  When the store
    answers with an error or the call throws, each returns null.  Otherwise
    getHistory returns the rows of the session by ascending created_at, and
    saveMessage returns the data of the insert answer, the table having
    gained the row.  The row saveMessage sends carries the session, the
    role and the content, and neither an identifier nor a timestamp. *)
Theorem gateway_swallows_failures (env : Env) (w : World) (sessionId : string)
    (role : Sender) (content : string) :
  let history := getHistory sessionId env w in
  let saved := saveMessage sessionId role content env w in
  (∃ r, history.1 = Normal r) ∧ (∃ r, saved.1 = Normal r) ∧
  (∀ err, service env = Failing err →
          history.1 = Normal None ∧ saved.1 = Normal None) ∧
  (∀ t, service env = Unreachable t →
        history.1 = Normal None ∧ saved.1 = Normal None) ∧
  (∀ server_time returning, service env = Healthy server_time returning →
     (∃ rows, history.1 = Normal (Some rows) ∧
              StronglySorted Store.created_le rows ∧
              rows ≡ₚ filter (λ r, ChatMessage.session_id r = sessionId)
                        (chat_messages w)) ∧
     (∃ stored,
        chat_messages saved.2 = chat_messages w ++ [stored] ∧
        ChatMessage.session_id stored = sessionId ∧
        ChatMessage.role stored = role_name role ∧
        ChatMessage.content stored = content ∧
        ChatMessage.created_at stored = Some server_time ∧
        saved.1 = Normal (if returning then Some [stored] else None))) ∧
  (∃ row, queries saved.2 = queries w ++ [InsertRows [row]] ∧
          ChatMessage.id row = None ∧ ChatMessage.created_at row = None ∧
          ChatMessage.session_id row = sessionId ∧
          ChatMessage.role row = role_name role ∧
          ChatMessage.content row = content).
Proof.
  cbn zeta.
  destruct (getHistory_run env w sessionId) as (Hh & _ & _).
  destruct (saveMessage_run env w sessionId role content) as (Hs & Hq & Ht).
  split; [rewrite Hh; eauto |]. split; [rewrite Hs; eauto |].
  split; [intros err He; rewrite Hh, Hs, He; done |].
  split; [intros t He; rewrite Hh, Hs, He; done |].
  split.
  - intros server_time returning He. rewrite Hh, Hs, Ht, He. split.
    + eexists. split; [done |]. apply select_history_sorted.
    + eexists. cbn. split; [done |]. repeat (split; [done |]).
      destruct returning; [| done].
      by rewrite drop_app_length.
  - exists (new_row sessionId role content). by rewrite Hq.
Qed.

Lemma gateway_swallows_failures_witness :
  (getHistory "s1" Sample.store_down Sample3.page).1 = Normal None ∧
  (saveMessage "s1" user "hi" Sample.store_down Sample3.page).1 = Normal None.
Proof.
  destruct (gateway_swallows_failures Sample.store_down Sample3.page "s1" user "hi")
    as (_ & _ & H & _).
  exact (H "connection refused" eq_refl).
Defined.

(** ** The text formatter *)

Section Formatting.

Import Formatter.

Lemma startsWith_length (p s : string) :
  JS.startsWith p s = true → (String.length p ≤ String.length s)%nat.
Proof.
  revert s. induction p as [|a p IH]; intros [|b s]; cbn; try (done || lia).
  destruct (decide (a = b)); [| done]. intros H. apply IH in H. lia.
Qed.

Lemma skip_length (n : nat) (s : string) :
  String.length (JS.skip n s) = (String.length s - n)%nat.
Proof.
  revert s. induction n as [|n IH]; intros [|c s]; cbn; (done || lia).
Qed.

Lemma lazy_until_length (close s run rest : string) :
  lazy_until close s = Some (run, rest) →
  (String.length rest + String.length close ≤ String.length s)%nat.
Proof.
  revert run. induction s as [|c s IH]; intros run; cbn [lazy_until].
  - destruct (JS.startsWith close "") eqn:Hp; [| done].
    intros [= <- <-]. apply startsWith_length in Hp. rewrite skip_length. lia.
  - destruct (JS.startsWith close (String c s)) eqn:Hp.
    + intros [= <- <-]. apply startsWith_length in Hp. rewrite skip_length. lia.
    + destruct (JS.is_line_terminator c); [done |].
      destruct (lazy_until close s) as [[run' rest']|] eqn:Hl; [| done].
      intros [= <- <-]. specialize (IH _ eq_refl). cbn. lia.
Qed.

(** A match consumes at least its two delimiters. *)
Lemma regex_exec_shorter (s captured rest : string) :
  regex_exec s = Some (captured, rest) →
  (String.length rest < String.length s)%nat.
Proof.
  assert (∀ delim, delim ≠ "" → delimited delim s = Some (captured, rest) →
                   (String.length rest < String.length s)%nat) as Hd.
  { intros delim Hne. unfold delimited.
    destruct (JS.startsWith delim s) eqn:Hp; [| done].
    destruct (lazy_until delim _) as [[run rest']|] eqn:Hl; [| done].
    intros [= <- <-]. apply lazy_until_length in Hl.
    rewrite skip_length in Hl. apply startsWith_length in Hp.
    destruct delim; [done |]. cbn in *. lia. }
  unfold regex_exec.
  destruct (delimited "**" s) as [m|] eqn:H2.
  - intros [= ->]. by apply (Hd "**").
  - by apply (Hd "*").
Qed.

(** Any fuel above the length of the text gives the same parts: the fuel
    of [split] is never exhausted. *)
Lemma split_loop_fuel (fuel fuel' : nat) (pending s : string) :
  (String.length s < fuel)%nat → (String.length s < fuel')%nat →
  split_loop fuel pending s = split_loop fuel' pending s.
Proof.
  revert fuel' pending s.
  induction fuel as [|fuel IH]; intros [|fuel'] pending s Hf Hf'; try lia.
  destruct s as [|c s]; [done |]. cbn [split_loop].
  destruct (regex_exec (String c s)) as [[captured rest]|] eqn:Hm.
  - apply regex_exec_shorter in Hm. cbn in *.
    do 2 f_equal. apply IH; lia.
  - cbn in *. apply IH; lia.
Qed.

(** A captured run is rendered emphasized, without its delimiters. *)
Lemma lazy_until_star (s run rest : string) :
  lazy_until "*" s = Some (run, rest) →
  run = "" ∨ ∃ c run', run = String c run' ∧ c ≠ "*"%char.
Proof.
  destruct s as [|c s]; cbn [lazy_until]; [done |].
  destruct (JS.startsWith "*" (String c s)) eqn:Hp; [intros [= <- _]; by left |].
  destruct (JS.is_line_terminator c); [done |].
  destruct (lazy_until "*" s) as [[run' rest']|]; [| done].
  intros [= <- _]. right. exists c, run'. split; [done |].
  intros ->. discriminate Hp.
Qed.

Lemma skip_app (a b : string) : JS.skip (String.length a) (a +:+ b) = b.
Proof. induction a as [|c a IH]; [done | exact IH]. Qed.

Lemma length_app (a b : string) :
  String.length (a +:+ b) = (String.length a + String.length b)%nat.
Proof. induction a as [|c a IH]; cbn; [done | by rewrite <- IH]. Qed.

Lemma endsWith_app (a p : string) : JS.endsWith p (a +:+ p) = true.
Proof.
  unfold JS.endsWith. rewrite length_app.
  destruct (decide _) as [_ | Hn]; [| lia].
  replace (String.length a + String.length p - String.length p)%nat
    with (String.length a) by lia.
  rewrite skip_app. by apply bool_decide_eq_true.
Qed.

Lemma substring_prefix (a b : string) :
  String.substring 0 (String.length a) (a +:+ b) = a.
Proof.
  induction a as [|c a IH].
  - by destruct b.
  - change (String c a +:+ b) with (String c (a +:+ b)). cbn. by rewrite IH.
Qed.

(** Slicing off a one- or two-character delimiter at both ends. *)
Lemma slice_delimited (body : string) :
  JS.slice 2 (-2) ("**" +:+ body +:+ "**") = body ∧
  JS.slice 1 (-1) ("*" +:+ body +:+ "*") = body.
Proof.
  unfold JS.slice. rewrite !length_app. cbn [String.length].
  set (n := String.length body).
  split.
  - change (2 <? 0) with false. change (-2 <? 0) with true. cbv iota.
    replace (Z.to_nat (2 `min` _)) with 2%nat by lia.
    replace (Z.to_nat (Z.max _ 0)) with n by lia.
    change (String.substring 2 n ("**" +:+ body +:+ "**"))
      with (String.substring 0 n (body +:+ "**")).
    apply substring_prefix.
  - change (1 <? 0) with false. change (-1 <? 0) with true. cbv iota.
    replace (Z.to_nat (1 `min` _)) with 1%nat by lia.
    replace (Z.to_nat (Z.max _ 0)) with n by lia.
    change (String.substring 1 n ("*" +:+ body +:+ "*"))
      with (String.substring 0 n (body +:+ "*")).
    apply substring_prefix.
Qed.

(** A run the pattern captures is rendered emphasized, without its
    delimiters. *)
Lemma captured_is_emphasized (idx : nat) (s captured rest : string) :
  regex_exec s = Some (captured, rest) →
  ∃ body,
    (captured = "**" +:+ body +:+ "**" ∨ captured = "*" +:+ body +:+ "*") ∧
    format_part idx captured = Strong idx body.
Proof.
  unfold regex_exec, delimited.
  destruct (JS.startsWith "**" s) eqn:H2;
    [destruct (lazy_until "**" _) as [[run rest2]|] eqn:Hl2 |].
  - intros [= <- <-]. exists run. split; [by left |].
    unfold format_part.
    change (JS.startsWith "**" ("**" +:+ run +:+ "**")) with true.
    change ("**" +:+ run +:+ "**") with (("**" +:+ run) +:+ "**") at 1.
    rewrite endsWith_app. cbn [andb].
    by rewrite (proj1 (slice_delimited run)).
  - clear Hl2. destruct (JS.startsWith "*" s); [| done].
    destruct (lazy_until "*" _) as [[run rest1]|] eqn:Hl1; [| done].
    intros [= <- <-]. exists run. split; [by right |].
    apply lazy_until_star in Hl1 as [-> | (c & run' & -> & Hc)]; [done |].
    unfold format_part.
    assert (JS.startsWith "**" ("*" +:+ String c run' +:+ "*") = false) as ->.
    { change ("*" +:+ String c run' +:+ "*")
        with (String "*" (String c (run' +:+ "*"))).
      cbn [JS.startsWith]. repeat case_decide; congruence. }
    cbn [andb].
    change (JS.startsWith "*" ("*" +:+ String c run' +:+ "*")) with true.
    change ("*" +:+ String c run' +:+ "*") with (("*" +:+ String c run') +:+ "*") at 1.
    rewrite endsWith_app. cbn [andb].
    by rewrite (proj2 (slice_delimited (String c run'))).
  - destruct (JS.startsWith "*" s); [| done].
    destruct (lazy_until "*" _) as [[run rest1]|] eqn:Hl1; [| done].
    intros [= <- <-]. exists run. split; [by right |].
    apply lazy_until_star in Hl1 as [-> | (c & run' & -> & Hc)]; [done |].
    unfold format_part.
    assert (JS.startsWith "**" ("*" +:+ String c run' +:+ "*") = false) as ->.
    { change ("*" +:+ String c run' +:+ "*")
        with (String "*" (String c (run' +:+ "*"))).
      cbn [JS.startsWith]. repeat case_decide; congruence. }
    cbn [andb].
    change (JS.startsWith "*" ("*" +:+ String c run' +:+ "*")) with true.
    change ("*" +:+ String c run' +:+ "*") with (("*" +:+ String c run') +:+ "*") at 1.
    rewrite endsWith_app. cbn [andb].
    by rewrite (proj2 (slice_delimited (String c run'))).
Qed.

(** A text without asterisks is one plain segment. *)
Lemma formatText_no_asterisk (text : string) :
  Forall (λ c, c ≠ "*"%char) (String.list_ascii_of_string text) →
  formatText text = [Plain text].
Proof.
  intros Hn.
  assert (∀ fuel pending s,
            Forall (λ c, c ≠ "*"%char) (String.list_ascii_of_string s) →
            (String.length s < fuel)%nat →
            split_loop fuel pending s = [String.rev_app pending s]) as Hsplit.
  { intros fuel pending s. revert fuel pending.
    induction s as [|c s IH]; intros [|fuel] pending Hs Hf; cbn in Hf; try lia.
    - done.
    - inversion Hs as [|? ? Hc Hs']; subst. cbn [split_loop].
      assert (regex_exec (String c s) = None) as ->.
      { unfold regex_exec, delimited. cbn.
        destruct (decide ("*"%char = c)); [by subst | done]. }
      rewrite IH; [done | done | lia]. }
  unfold formatText, split. rewrite Hsplit; [| done | lia].
  cbn. unfold format_part.
  destruct text as [|c text]; [done |].
  inversion Hn; subst. cbn.
  destruct (decide ("*"%char = c)); [by subst | done].
Qed.

End Formatting.

(** C8.  On the input hello **world** *foo* the formatter yields the plain
    segment hello, the emphasized world, a plain space, the emphasized foo
    and a trailing empty plain segment.  On the input made of one asterisk
    the pattern finds no delimited run (the text is split into the single
    part it is), and yet the formatter yields an emphasized empty segment:
    the asterisk is not rendered as plain text. *)
Theorem formatText_lone_asterisk :
  Formatter.formatText "hello **world** *foo*"
  = [Formatter.Plain "hello "; Formatter.Strong 1 "world"; Formatter.Plain " ";
     Formatter.Strong 3 "foo"; Formatter.Plain ""] ∧
  Formatter.regex_exec "*" = None ∧
  Formatter.split "*" = ["*"] ∧
  Formatter.formatText "*" = [Formatter.Strong 0 ""] ∧
  Formatter.formatText "*a**"
  = [Formatter.Plain ""; Formatter.Strong 1 "a"; Formatter.Strong 2 ""].
Proof. repeat split; vm_compute; reflexivity. Qed.

(** * Further properties of the page and the gateway *)

(** ** One send, as a whole *)

(** Reading a field of a body that is not null throws nothing and changes
    nothing: [a || b] yields the field when it is truthy and goes on to [b]
    otherwise. *)
Lemma or_else_field (d : JSON) (key : string) (b : M JSON) (env : Env) (w : World) :
  d ≠ JNull →
  or_else (prop d key) b env w
  = match truthy_field d key with
    | Some v => (Normal v, w)
    | None => b env w
    end.
Proof.
  intros Hd. unfold or_else, truthy_field, field, prop, mbind, mret, M_bind,
    M_ret, Run.bind, Run.ret.
  destruct d as [| x | n | s | items | props]; [done | done .. |].
  destruct (JSONValue.lookup_prop key props) as [v|]; [| done].
  by destruct (JSONValue.truthy v).
Qed.

Lemma or_else_null (key : string) (b : M JSON) (env : Env) (w : World) :
  or_else (prop JNull key) b env w
  = (Throw (ErrorObject "TypeError"
              ("Cannot read properties of null (reading '" +:+ key +:+ "')")), w).
Proof. reflexivity. Qed.

(** The handler, unfolded down to the reads of the body. *)
Ltac run_outer :=
  repeat progress
    (unfold mbind, mret, M_bind, M_ret, Run.bind, Run.ret, Run.try_catch,
       Run.try_finally, Run.throw, read, setMessages, setInput, setLoading,
       setSessionId, Date_now, new_Date, fetch, response_json,
       process_env_Backend_URL;
     cbn [fst snd messages input loading sessionId localStorage chat_messages
          queries requests console ticks draws]).

(** The world a send that passes the guard ends in: two messages more, the
    input cleared, the loading flag down, one request more, and the rest as
    it was (but for the clock readings taken). *)
Lemma handleSend_world (env : Env) (w : World) :
  sendable w →
  ∃ b n,
    handleSend env w
    = (Normal (),
       {| messages := messages w ++ [userMessage env w; b];
          input := ""; loading := false;
          sessionId := sessionId w; localStorage := localStorage w;
          chat_messages := chat_messages w; queries := queries w;
          requests := requests w
                      ++ [chat_request (backendUrl env) (input w) (sessionId w)];
          console := console w; ticks := n; draws := draws w |}) ∧
    Message.sender b = bot.
Proof.
  intros Hs. unfold handleSend. run_outer. rewrite (sendable_guard w Hs).
  destruct (network env _) as [r | t]; cbn [fst snd];
    [destruct (ok r);
       [destruct (json r) as [d | t];
          [assert (d = JNull ∨ d ≠ JNull) as [-> | Hd]
             by (destruct d; [by left | by right ..]) |] |] |].
  - rewrite or_else_null. run_outer.
    eexists _, _. split; [by rewrite <- (app_assoc (messages w)) | reflexivity].
  - rewrite (or_else_field d "reply") by done.
    destruct (truthy_field d "reply") as [v|];
      [| rewrite (or_else_field d "message") by done;
         destruct (truthy_field d "message") as [v|]];
      run_outer; rewrite (or_else_field d "chips") by done;
      destruct (truthy_field d "chips") as [c|]; run_outer;
      eexists _, _; (split; [by rewrite <- (app_assoc (messages w)) | reflexivity]).
  - run_outer. eexists _, _.
    split; [by rewrite <- (app_assoc (messages w)) | reflexivity].
  - run_outer. eexists _, _.
    split; [by rewrite <- (app_assoc (messages w)) | reflexivity].
  - run_outer. eexists _, _.
    split; [by rewrite <- (app_assoc (messages w)) | reflexivity].
Qed.

(** X1.  A send leaves the world exactly as it was if and only if the input
    is made of white space only (the empty input included) or no session is
    resolved yet; in every other case it completes normally and changes the
    world. *)
Theorem send_is_void_iff_guarded (env : Env) (w : World) :
  (handleSend env w).1 = Normal () ∧
  (handleSend env w = (Normal (), w) ↔
   Forall (λ c, JS.is_white c = true) (String.list_ascii_of_string (input w)) ∨
   sessionId w = "").
Proof.
  split; [apply handleSend_appends |].
  rewrite <- trim_empty_iff. split.
  - intros Hrun.
    destruct (decide (JS.trim (input w) = "")) as [|Hi]; [by left |].
    destruct (decide (sessionId w = "")) as [|Hs]; [by right |].
    destruct (handleSend_world env w) as (b & n & Hw & _); [done |].
    rewrite Hw in Hrun. injection Hrun as Hrun.
    apply (f_equal (λ x, length (messages x))) in Hrun.
    cbn [messages] in Hrun. rewrite List.length_app in Hrun. cbn in Hrun. lia.
  - apply handleSend_guard.
Qed.

(** X2.  A send that passes the guard issues exactly one request, whatever
    the backend answers: a POST to the base URL followed by /chat, declared
    as JSON, whose body is the stringification of the untrimmed input and
    the session identifier; when it is over the input field is empty and
    the loading flag is down. *)
Theorem send_issues_one_request (env : Env) (w : World) :
  sendable w →
  let w' := (handleSend env w).2 in
  ∃ req,
    requests w' = requests w ++ [req] ∧
    url req = default "undefined" (backendUrl env) +:+ "/chat" ∧
    method req = "POST" ∧
    headers req = [("Content-Type", "application/json")] ∧
    body req = JSONValue.stringify
                 (JObject [("message", JString (input w));
                           ("session_id", JString (sessionId w))]) ∧
    input w' = "" ∧ loading w' = false.
Proof.
  intros Hs. destruct (handleSend_world env w Hs) as (b & n & -> & _).
  eexists. by split.
Qed.

Lemma send_issues_one_request_witness :
  map url (requests (handleSend (Sample.replying (JObject [("reply", JString "hi")]))
                       (Sample.typed "  gift ideas ")).2)
  = ["http://localhost:8000/chat"].
Proof.
  destruct (send_issues_one_request
              (Sample.replying (JObject [("reply", JString "hi")]))
              (Sample.typed "  gift ideas "))
    as (req & Hr & Hu & _); [split; discriminate |].
  rewrite Hr. cbn. by rewrite Hu.
Defined.

(** X3.  No send, guarded or not and whatever the backend answers, touches
    the session, the browser storage or the hosted table; none sends a query
    to the store, writes to the console or draws a random number. *)
Theorem send_leaves_session_and_store (env : Env) (w : World) :
  let w' := (handleSend env w).2 in
  sessionId w' = sessionId w ∧ localStorage w' = localStorage w ∧
  chat_messages w' = chat_messages w ∧ queries w' = queries w ∧
  console w' = console w ∧ draws w' = draws w.
Proof.
  cbn zeta.
  destruct (decide (JS.trim (input w) = "")) as [Hi | Hi];
    [by rewrite (handleSend_guard env w (or_introl Hi)) |].
  destruct (decide (sessionId w = "")) as [Hs | Hs];
    [by rewrite (handleSend_guard env w (or_intror Hs)) |].
  by destruct (handleSend_world env w) as (b & n & -> & _).
Qed.

(** X4.  A send that passes the guard appends exactly two messages in every
    outcome: first the user's, whose text is the input as typed (not
    trimmed) and which has no chips, then one bot message, reply or
    placeholder. *)
Theorem send_appends_user_then_bot (env : Env) (w : World) :
  sendable w →
  ∃ u b,
    messages (handleSend env w).2 = messages w ++ [u; b] ∧
    Message.sender u = user ∧ Message.text u = JString (input w) ∧
    Message.chips u = None ∧ Message.sender b = bot.
Proof.
  intros Hs. destruct (handleSend_world env w Hs) as (b & n & -> & Hb).
  by exists (userMessage env w), b.
Qed.

Lemma send_appends_user_then_bot_witness :
  ∃ u b,
    messages (handleSend (Sample.env (Throw (ThrownValue JNull)) [])
                (Sample.typed "  gift ideas ")).2 = [u; b] ∧
    Message.text u = JString "  gift ideas " ∧ Message.sender b = bot.
Proof.
  destruct (send_appends_user_then_bot
              (Sample.env (Throw (ThrownValue JNull)) [])
              (Sample.typed "  gift ideas ")) as (u & b & Hm & _ & Ht & _ & Hb);
    [split; discriminate |].
  exists u, b. rewrite Hm.
  split; [reflexivity |]. split; [exact Ht | exact Hb].
Defined.

(** X5.  Clicking a suggestion chip and then sending, on a page with a
    resolved session, sends the text of the chip: when that text is not
    blank, the user message appended and the message field of the request
    are the chip's text, whatever had been typed before. *)
Theorem chip_click_then_send (env env' : Env) (w : World) (chip : string) :
  JS.trim chip ≠ "" → sessionId w ≠ "" →
  let w1 := (handleChipClick chip env w).2 in
  let w2 := (handleSend env' w1).2 in
  input w1 = chip ∧
  (∃ u b, messages w2 = messages w ++ [u; b] ∧
          Message.sender u = user ∧ Message.text u = JString chip ∧
          Message.sender b = bot) ∧
  requests w2 = requests w ++ [chat_request (backendUrl env') chip (sessionId w)].
Proof.
  intros Hc Hs. cbn zeta.
  assert ((handleChipClick chip env w).2
          = {| messages := messages w; input := chip; loading := loading w;
               sessionId := sessionId w; localStorage := localStorage w;
               chat_messages := chat_messages w; queries := queries w;
               requests := requests w; console := console w;
               ticks := ticks w; draws := draws w |}) as -> by reflexivity.
  split; [done |].
  match goal with |- context [handleSend env' ?w1] =>
    destruct (handleSend_world env' w1) as (b & n & -> & Hb); [by split |]
  end.
  split; [| done]. by eexists _, b.
Qed.

Lemma chip_click_then_send_witness :
  map body (requests
    (handleSend (Sample.replying JNull)
       (handleChipClick "a mug" (Sample.replying JNull) (Sample.typed "old")).2).2)
  = [JSONValue.stringify
       (JObject [("message", JString "a mug"); ("session_id", JString "s1")])].
Proof.
  destruct (chip_click_then_send (Sample.replying JNull) (Sample.replying JNull)
              (Sample.typed "old") "a mug") as (_ & _ & ->);
    [discriminate | discriminate |].
  reflexivity.
Defined.

(** ** One mount, as a whole *)

(** The world a mount ends in: the session resolved from the storage or
    generated and stored, one read query sent, the list replaced by a
    non-empty history, a line on the console when the store fails, and the
    rest as it was. *)
Lemma initializeSession_world (env : Env) (w : World) :
  let sid := default (fresh_session env w) (stored_session w) in
  ∃ n k,
    initializeSession env w
    = (Normal (),
       {| messages :=
            match service env with
            | Healthy _ _ =>
                match Store.select_history sid (chat_messages w) with
                | [] => messages w
                | rows => map loaded_message rows
                end
            | _ => messages w
            end;
          input := input w; loading := loading w;
          sessionId := sid;
          localStorage :=
            match stored_session w with
            | Some _ => localStorage w
            | None => <[session_key := sid]> (localStorage w)
            end;
          chat_messages := chat_messages w;
          queries := queries w ++ [SelectHistory sid];
          requests := requests w;
          console :=
            console w ++ match service env with
                         | Healthy _ _ => []
                         | Failing _ => ["Error loading chat history:"]
                         | Unreachable _ => ["Error initializing session:"]
                         end;
          ticks := n; draws := k |}).
Proof.
  unfold stored_session, session_key, fresh_session, initializeSession. run.
  destruct (localStorage w !! "chatSessionId") as [s|];
    [destruct (decide (s = "")) |];
    cbn [default];
    (destruct (service env) as [server_time returning | err | t]; run;
     [destruct (Store.select_history _ (chat_messages w)) |..];
     eexists _, _; cbn; rewrite ?app_nil_r; reflexivity).
Qed.

(** X6.  A mount never throws and never writes to the store.  When the
    store answers with an error or the call throws, or when the session has
    no stored message, the message list stays as it was; the session is
    resolved all the same, and a store failure is reported by one line on
    the console. *)
Theorem mount_without_history (env : Env) (w : World) :
  let w' := (initializeSession env w).2 in
  (initializeSession env w).1 = Normal () ∧
  session_resolved w' ∧
  chat_messages w' = chat_messages w ∧
  queries w' = queries w ++ [SelectHistory (sessionId w')] ∧
  (∀ err, service env = Failing err →
          messages w' = messages w ∧
          console w' = console w ++ ["Error loading chat history:"]) ∧
  (∀ t, service env = Unreachable t →
        messages w' = messages w ∧
        console w' = console w ++ ["Error initializing session:"]) ∧
  (∀ server_time returning,
     service env = Healthy server_time returning →
     Store.select_history (sessionId w') (chat_messages w) = [] →
     messages w' = messages w ∧ console w' = console w).
Proof.
  cbn zeta. destruct (initializeSession_world env w) as (n & k & ->).
  cbn [fst snd messages sessionId localStorage chat_messages queries console].
  split; [done |]. split; [| split; [done |]; split; [done |]].
  - unfold session_resolved, stored_session.
    cbn [sessionId localStorage]. unfold stored_session.
    destruct (localStorage w !! session_key) as [s|] eqn:Hl;
      [destruct (decide (s = "")) |]; cbn [default].
    + split; [by rewrite lookup_insert_eq | discriminate].
    + done.
    + split; [by rewrite lookup_insert_eq | discriminate].
  - split; [intros err -> | split; [intros t -> |]]; [done | done |].
    intros server_time returning -> ->. by rewrite app_nil_r.
Qed.

Lemma mount_without_history_witness :
  let w' := (initializeSession Sample.store_down Sample3.page).2 in
  messages w' = [] ∧ sessionId w' = "s1" ∧
  console w' = ["Error loading chat history:"].
Proof.
  destruct (mount_without_history Sample.store_down Sample3.page)
    as (_ & _ & _ & _ & Hfail & _).
  destruct (Hfail _ eq_refl) as [Hm Hc]. cbn zeta.
  rewrite Hm, Hc. by vm_compute.
Defined.

(** ** Whole sessions: what every sequence of events keeps *)

(** A send started by the button or by a key either does nothing or ends
    as [handleSend_world] says. *)
Lemma perform_send (a : Action) (env : Env) (w : World) :
  is_send a = true →
  perform a env w = (Normal (), w) ∨
  ∃ b n,
    perform a env w
    = (Normal (),
       {| messages := messages w ++ [userMessage env w; b];
          input := ""; loading := false;
          sessionId := sessionId w; localStorage := localStorage w;
          chat_messages := chat_messages w; queries := queries w;
          requests := requests w
                      ++ [chat_request (backendUrl env) (input w) (sessionId w)];
          console := console w; ticks := n; draws := draws w |}) ∧
    Message.sender b = bot.
Proof.
  assert (handleSend env w = (Normal (), w) ∨
          ∃ b n,
            handleSend env w
            = (Normal (),
               {| messages := messages w ++ [userMessage env w; b];
                  input := ""; loading := false;
                  sessionId := sessionId w; localStorage := localStorage w;
                  chat_messages := chat_messages w; queries := queries w;
                  requests := requests w
                              ++ [chat_request (backendUrl env) (input w) (sessionId w)];
                  console := console w; ticks := n; draws := draws w |}) ∧
            Message.sender b = bot) as Hsend.
  { destruct (decide (JS.trim (input w) = "")) as [Hi | Hi];
      [left; by apply handleSend_guard; left |].
    destruct (decide (sessionId w = "")) as [Hs | Hs];
      [left; by apply handleSend_guard; right |].
    right. by apply handleSend_world. }
  destruct a as [| | | | e |]; try discriminate; intros _; cbn [perform].
  - exact Hsend.
  - unfold handleKeyPress.
    destruct (bool_decide _ && negb _); [| by left].
    unfold mbind, mret, M_bind, M_ret, Run.bind, Run.ret.
    destruct Hsend as [-> | (b & n & -> & Hb)]; [by left | right; by exists b, n].
Qed.

(** What one event does to the parts of the world the page shares with the
    outside, and to the message list. *)
Lemma perform_effect (a : Action) (env : Env) (w : World) :
  let w' := (perform a env w).2 in
  (perform a env w).1 = Normal () ∧
  chat_messages w' = chat_messages w ∧
  (∃ added, queries w' = queries w ++ added ∧ Forall is_select added ∧
            length added = if a is Mount then 1%nat else 0%nat) ∧
  (∃ sent, requests w' = requests w ++ sent ∧
           (length sent ≤ if is_send a then 1 else 0)%nat) ∧
  (if replaces_messages a
   then messages w' = messages w ∨ Forall (λ m, Message.chips m = None) (messages w')
   else ∃ appended, messages w' = messages w ++ appended ∧
                    Forall (λ m, Message.chips m ≠ None → Message.sender m = bot)
                      appended) ∧
  (a = Mount ∨ session_resolved w → session_resolved w').
Proof.
  cbn zeta. destruct a as [| value | chip | | e |].
  - (* mount *)
    cbn [perform is_send replaces_messages].
    destruct (initializeSession_world env w) as (n & k & ->).
    cbn [fst snd messages sessionId localStorage chat_messages queries requests].
    split; [done |]. split; [done |].
    split; [eexists; split; [done |]; split; [| done];
            repeat constructor; by eexists |].
    split; [exists []; by rewrite app_nil_r |].
    split.
    + destruct (service env); [| by left ..].
      destruct (Store.select_history _ _) as [|row rows]; [by left |]. right.
      generalize (row :: rows). intros l. induction l; by constructor.
    + intros _. unfold session_resolved, stored_session. cbn [sessionId localStorage].
      unfold stored_session.
      destruct (localStorage w !! session_key) as [s|] eqn:Hl;
        [destruct (decide (s = "")) |]; cbn [default];
        [split; [by rewrite lookup_insert_eq | discriminate] | done
        | split; [by rewrite lookup_insert_eq | discriminate]].
  - (* typing *)
    cbn. repeat (split; [done |]).
    split; [exists []; repeat split; [by rewrite app_nil_r | constructor] |].
    split; [exists []; by rewrite app_nil_r |].
    split; [exists []; split; [by rewrite app_nil_r | constructor] |].
    by intros [|].
  - (* chip *)
    cbn. repeat (split; [done |]).
    split; [exists []; repeat split; [by rewrite app_nil_r | constructor] |].
    split; [exists []; by rewrite app_nil_r |].
    split; [exists []; split; [by rewrite app_nil_r | constructor] |].
    by intros [|].
  - (* send *)
    destruct (perform_send ClickSend env w eq_refl) as [-> | (b & n & -> & Hb)];
      cbn [fst snd messages sessionId localStorage chat_messages queries requests
           is_send replaces_messages].
    + repeat (split; [done |]).
      split; [exists []; repeat split; [by rewrite app_nil_r | constructor] |].
      split; [exists []; split; [by rewrite app_nil_r | cbn; lia] |].
      split; [exists []; split; [by rewrite app_nil_r | constructor] |].
      by intros [|].
    + repeat (split; [done |]).
      split; [exists []; repeat split; [by rewrite app_nil_r | constructor] |].
      split; [eexists; split; [done | cbn; lia] |].
      split; [eexists; split; [done |]; repeat constructor; done |].
      by intros [|].
  - (* key *)
    destruct (perform_send (PressKey e) env w eq_refl) as [-> | (b & n & -> & Hb)];
      cbn [fst snd messages sessionId localStorage chat_messages queries requests
           is_send replaces_messages].
    + repeat (split; [done |]).
      split; [exists []; repeat split; [by rewrite app_nil_r | constructor] |].
      split; [exists []; split; [by rewrite app_nil_r | cbn; lia] |].
      split; [exists []; split; [by rewrite app_nil_r | constructor] |].
      by intros [|].
    + repeat (split; [done |]).
      split; [exists []; repeat split; [by rewrite app_nil_r | constructor] |].
      split; [eexists; split; [done | cbn; lia] |].
      split; [eexists; split; [done |]; repeat constructor; done |].
      by intros [|].
  - (* clear *)
    cbn [perform is_send replaces_messages].
    destruct (confirms env) eqn:Hc.
    + rewrite (handleClearChat_confirmed env w Hc).
      cbn [fst snd messages sessionId localStorage chat_messages queries requests].
      repeat (split; [done |]).
      split; [exists []; repeat split; [by rewrite app_nil_r | constructor] |].
      split; [exists []; by rewrite app_nil_r |].
      split; [right; constructor |].
      intros _. unfold session_resolved. cbn [sessionId localStorage].
      split; [by rewrite lookup_insert_eq | discriminate].
    + rewrite (handleClearChat_declined env w Hc).
      cbn [fst snd].
      repeat (split; [done |]).
      split; [exists []; repeat split; [by rewrite app_nil_r | constructor] |].
      split; [exists []; by rewrite app_nil_r |].
      split; [by left |].
      by intros [|].
Qed.

Lemma after_cons (env : Env) (a : Action) (events : list (Env * Action)) (w : World) :
  after ((env, a) :: events) w = after events (perform a env w).2.
Proof. reflexivity. Qed.

(** X7.  Whatever the user does and whatever the outside answers, the page
    never writes to the hosted store: after any sequence of events the
    table is as it was, and the only queries the page has sent are reads of
    a session's history, one per mount. *)
Theorem page_never_writes_to_store (events : list (Env * Action)) (w : World) :
  chat_messages (after events w) = chat_messages w ∧
  ∃ added,
    queries (after events w) = queries w ++ added ∧
    Forall is_select added ∧
    length added = length (filter (λ ea, is_mount ea.2 = true) events).
Proof.
  revert w. induction events as [|[env a] events IH]; intros w.
  - split; [done |]. exists []. by rewrite app_nil_r.
  - rewrite after_cons.
    destruct (perform_effect a env w) as (_ & Ht & (q1 & Hq1 & Hs1 & Hl1) & _).
    destruct (IH (perform a env w).2) as (Ht' & q2 & Hq2 & Hs2 & Hl2).
    split; [by rewrite Ht', Ht |].
    exists (q1 ++ q2). split; [by rewrite Hq2, Hq1, app_assoc |].
    split; [by apply Forall_app |].
    rewrite List.length_app, Hl1, Hl2, filter_cons. cbn [snd].
    by destruct a.
Qed.

(** A mount resolves the session, and no later event undoes that. *)
Lemma resolved_after_mount (env : Env) (events : list (Env * Action)) (w : World) :
  session_resolved (after ((env, Mount) :: events) w).
Proof.
  rewrite after_cons.
  assert (session_resolved (perform Mount env w).2) as Hr.
  { apply perform_effect. by left. }
  revert Hr. generalize (perform Mount env w).2. clear w.
  induction events as [|[env' a] events IH]; intros w Hr; [exact Hr |].
  rewrite after_cons. apply IH. apply perform_effect. by right.
Qed.

(** X8.  Once the page has mounted, its session is resolved for good:
    after the mount and any sequence of events (typing, chips, sends, key
    presses, resets confirmed or declined, further mounts) the identifier
    the page holds is not empty and is the one stored under chatSessionId. *)
Theorem session_stays_resolved (env : Env) (events : list (Env * Action))
    (w : World) :
  let w' := after ((env, Mount) :: events) w in
  localStorage w' !! session_key = Some (sessionId w') ∧ sessionId w' ≠ "".
Proof. apply resolved_after_mount. Qed.

(** C6.  When a session identifier is stored under the key chatSessionId
    (a non-empty string, or whatever the storage holds in a state the page
    itself has produced), the mount-time resolution takes it as the session
    unchanged and does not overwrite it: the storage is as it was and
    nothing is generated; and so it is after every later mount, whatever
    the environment. *)
Theorem stored_session_is_stable (env : Env) (w : World) (s : string)
    (later : list Env) :
  localStorage w !! session_key = Some s → s ≠ "" ∨ page_state w →
  let w' := (initializeSession env w).2 in
  sessionId w' = s ∧ localStorage w' = localStorage w ∧
  ticks w' = ticks w ∧ draws w' = draws w ∧
  sessionId (mounts later w') = s ∧
  localStorage (mounts later w') = localStorage w.
Proof.
  intros Hl Hs. apply nonempty_stored_session_is_stable; [exact Hl |].
  destruct Hs as [Hs | (env0 & events & w0 & ->)]; [exact Hs |].
  destruct (resolved_after_mount env0 events w0) as [Hl' Hne].
  rewrite Hl in Hl'. by injection Hl' as ->.
Qed.

Lemma stored_session_is_stable_witness :
  sessionId
    (mounts [Sample4.env; Sample5.env]
       (initializeSession Sample5.env
          (after [(Sample4.env, Mount);
                  (Sample.env (Throw (ThrownValue JNull))
                     [20; 21; 22; 23; 24; 25; 26; 27; 28]%N, ClickClear)]
             (unmounted ∅ []))).2)
  = "session_1700000000001_klmnopqrs".
Proof.
  apply (stored_session_is_stable Sample5.env
           (after [(Sample4.env, Mount);
                   (Sample.env (Throw (ThrownValue JNull))
                      [20; 21; 22; 23; 24; 25; 26; 27; 28]%N, ClickClear)]
              (unmounted ∅ []))
           "session_1700000000001_klmnopqrs" [Sample4.env; Sample5.env]).
  - vm_compute. reflexivity.
  - right. by eexists _, _, _.
Defined.

(** X9.  Only bot messages ever carry chips: if that holds of the message
    list, it holds after any sequence of events; in particular no user
    message and no message restored from the store has chips. *)
Theorem chips_stay_on_bot_messages (events : list (Env * Action)) (w : World) :
  chips_on_bot_only w → chips_on_bot_only (after events w).
Proof.
  revert w. induction events as [|[env a] events IH]; intros w Hw; [exact Hw |].
  rewrite after_cons. apply IH. clear IH.
  destruct (perform_effect a env w) as (_ & _ & _ & _ & Hm & _).
  intros m Hin Hchips.
  destruct (replaces_messages a).
  - destruct Hm as [Hm | Hm]; [rewrite Hm in Hin; by apply Hw |].
    rewrite Forall_forall in Hm. by destruct Hchips; apply Hm.
  - destruct Hm as (appended & Hm & Hf). rewrite Hm in Hin.
    apply elem_of_app in Hin as [Hin | Hin]; [by apply Hw |].
    rewrite Forall_forall in Hf. by apply Hf.
Qed.

Lemma chips_stay_on_bot_messages_witness :
  let w' :=
    after [(Sample.replying (JObject [("reply", JString "A rod?");
                                      ("chips", JArray [JString "a reel"])]),
            ClickSend);
           (Sample4.env, ClickChip "a reel");
           (Sample.env (Throw (ErrorObject "TypeError" "Failed to fetch")) [],
            PressKey Sample9.enter)]
      Sample9.page in
  map (λ m, (Message.sender m, Message.chips m)) (messages w')
  = [(user, None);
     (bot, Some (JArray [JString "fishing"; JString "books"]));
     (user, None);
     (bot, Some (JArray [JString "a reel"]));
     (user, None);
     (bot, None)] ∧
  chips_on_bot_only w'.
Proof.
  split; [vm_compute; reflexivity |].
  apply chips_stay_on_bot_messages.
  intros m Hm Hchips.
  destruct (elem_of_pair _ _ _ Hm) as [-> | ->]; [by destruct Hchips | done].
Defined.

(** X11.  No retry: after any sequence of events the requests issued
    before are still the first ones, and at most one request has been added
    for each click on the send button or key press. *)
Theorem at_most_one_request_per_send (events : list (Env * Action)) (w : World) :
  requests w `prefix_of` requests (after events w) ∧
  (length (requests (after events w))
   ≤ length (requests w) + length (filter (λ ea, is_send ea.2 = true) events))%nat.
Proof.
  revert w. induction events as [|[env a] events IH]; intros w.
  - split; [done | cbn; lia].
  - rewrite after_cons.
    destruct (perform_effect a env w) as (_ & _ & _ & (sent & Hs & Hl) & _).
    destruct (IH (perform a env w).2) as [Hp Hn].
    split.
    + etrans; [| exact Hp]. rewrite Hs. by apply prefix_app_r.
    + rewrite Hs, List.length_app in Hn. rewrite filter_cons. cbn [snd].
      destruct (is_send a);
        [rewrite decide_True by done | rewrite decide_False by done];
        cbn [length] in *; lia.
Qed.

(** ** Resets and identifiers *)

(** X12.  A clear-chat click whose confirmation is declined changes
    nothing at all.  Confirmed or not, the click issues no request and no
    query, writes nothing to the console, leaves the loading flag and the
    hosted table alone, and touches no entry of the browser storage other
    than chatSessionId. *)
Theorem clear_chat_touches_only_the_session (env : Env) (w : World) :
  (confirms env = false → handleClearChat env w = (Normal (), w)) ∧
  let w' := (handleClearChat env w).2 in
  loading w' = loading w ∧ requests w' = requests w ∧ queries w' = queries w ∧
  console w' = console w ∧ chat_messages w' = chat_messages w ∧
  (∀ k, k ≠ session_key → localStorage w' !! k = localStorage w !! k).
Proof.
  split; [apply handleClearChat_declined |]. cbn zeta.
  destruct (confirms env) eqn:Hc.
  - rewrite (handleClearChat_confirmed env w Hc). cbn.
    repeat (split; [done |]). intros k Hk. by rewrite lookup_insert_ne.
  - by rewrite (handleClearChat_declined env w Hc).
Qed.

(** X13.  An identifier tells the clock reading and the suffix it was built
    from: two generated identifiers are equal exactly when their clock
    readings are equal and their suffixes are equal.  Identifiers generated
    at different milliseconds are therefore different, and none is empty. *)
Theorem session_identifier_is_decodable (t0 t1 : Z) (r0 r1 : list N) :
  (session_id_of t0 r0 = session_id_of t1 r1 ↔
   t0 = t1 ∧ JS.substr 2 9 (toString36 r0) = JS.substr 2 9 (toString36 r1)) ∧
  (t0 ≠ t1 → session_id_of t0 r0 ≠ session_id_of t1 r1) ∧
  session_id_of t0 r0 ≠ "".
Proof.
  split; [split |].
  - apply session_id_of_inj.
  - intros [-> Hs]. unfold session_id_of. by rewrite Hs.
  - split; [| discriminate].
    intros Hne Heq. by apply session_id_of_inj in Heq as [? _].
Qed.

(** An event that is no confirmed reset keeps a resolved session and the
    storage as they are. *)
Lemma perform_keeps_session (a : Action) (env : Env) (w : World) :
  session_resolved w → a ≠ ClickClear ∨ confirms env = false →
  sessionId (perform a env w).2 = sessionId w ∧
  localStorage (perform a env w).2 = localStorage w.
Proof.
  intros [Hl Hs] Ha. destruct a as [| value | chip | | e |].
  - cbn [perform].
    by destruct (initializeSession_stored env w _ Hl Hs) as (_ & -> & -> & _).
  - done.
  - done.
  - by destruct (perform_send ClickSend env w eq_refl) as [-> | (b & n & -> & _)].
  - by destruct (perform_send (PressKey e) env w eq_refl) as [-> | (b & n & -> & _)].
  - destruct Ha as [Ha | Ha]; [done |]. cbn [perform].
    by rewrite (handleClearChat_declined env w Ha).
Qed.

(** X14.  The identifier resolved by a mount is stable until a reset is
    confirmed: after the mount, any sequence of events that contains no
    confirmed clear-chat (typing, chips, sends, key presses, declined
    resets, reloads of the page) leaves the page with the same identifier
    and the same browser storage. *)
Theorem session_is_stable_until_reset (env : Env) (events : list (Env * Action))
    (w : World) :
  Forall (λ ea, ea.2 ≠ ClickClear ∨ confirms ea.1 = false) events →
  let w1 := (initializeSession env w).2 in
  sessionId (after events w1) = sessionId w1 ∧
  localStorage (after events w1) = localStorage w1.
Proof.
  intros Hev. cbn zeta.
  assert (session_resolved (initializeSession env w).2) as Hr.
  { apply (perform_effect Mount env w). by left. }
  revert Hr. generalize (initializeSession env w).2. clear w.
  induction Hev as [|[env' a] events Ha Hev IH]; intros w Hr; [done |].
  rewrite after_cons. cbn [fst snd] in Ha.
  destruct (perform_keeps_session a env' w Hr Ha) as [Hs Hl].
  destruct (IH (perform a env' w).2) as [IHs IHl].
  { apply perform_effect. by right. }
  by rewrite IHs, IHl, Hs, Hl.
Qed.

Lemma session_is_stable_until_reset_witness :
  sessionId
    (after [(Sample.replying (JObject [("reply", JString "hi")]), Change "hello");
            (Sample.replying (JObject [("reply", JString "hi")]), ClickSend);
            (Sample5.env, Mount)]
       (initializeSession Sample4.env (unmounted ∅ [])).2)
  = "session_1700000000000_abcdefghi".
Proof.
  destruct (session_is_stable_until_reset Sample4.env
              [(Sample.replying (JObject [("reply", JString "hi")]), Change "hello");
               (Sample.replying (JObject [("reply", JString "hi")]), ClickSend);
               (Sample5.env, Mount)]
              (unmounted ∅ [])) as [-> _].
  - do 3 (constructor; [left; discriminate |]). constructor.
  - vm_compute. reflexivity.
Defined.

Lemma select_history_none (session : string) (table : list ChatMessage.t) :
  Forall (λ row, ChatMessage.session_id row ≠ session) table →
  Store.select_history session table = [].
Proof.
  intros Hn. unfold Store.select_history.
  assert (filter (λ r, ChatMessage.session_id r = session) table = []) as ->.
  { induction Hn as [|row rows Hrow _ IH]; [done |].
    by rewrite filter_cons, decide_False. }
  reflexivity.
Qed.

(** X15.  After a confirmed reset, a reload of the page against a store
    that answers resolves the new identifier, not the old one; the rows of
    the old conversation are still in the table, and the page shows an
    empty conversation as long as no stored row carries the new
    identifier. *)
Theorem reset_then_reload (env env' : Env) (w : World) (server_time : Z)
    (returning : bool) :
  confirms env = true → service env' = Healthy server_time returning →
  let w1 := (handleClearChat env w).2 in
  let w2 := (initializeSession env' w1).2 in
  sessionId w1 = session_id_of (clock env (ticks w)) (random env (draws w)) ∧
  sessionId w2 = sessionId w1 ∧
  chat_messages w2 = chat_messages w ∧
  (Forall (λ row, ChatMessage.session_id row ≠ sessionId w1) (chat_messages w) →
   messages w2 = []).
Proof.
  intros Hc Hsvc. cbn zeta. rewrite (handleClearChat_confirmed env w Hc).
  cbn [snd sessionId].
  match goal with |- context [initializeSession env' ?w1] =>
    destruct (initializeSession_world env' w1) as (n & k & ->);
    assert (stored_session w1 = Some (fresh_session env w)) as Hst
  end.
  { unfold stored_session. cbn [localStorage]. rewrite lookup_insert_eq.
    by destruct (decide _). }
  rewrite Hst, Hsvc. cbn [snd sessionId chat_messages messages default].
  split; [done |]. split; [done |]. split; [done |].
  intros Hn. by rewrite select_history_none.
Qed.

Lemma reset_then_reload_witness :
  let w1 := (handleClearChat Sample4.env Sample3.page).2 in
  let w2 := (initializeSession Sample4.env w1).2 in
  sessionId w2 = "session_1700000000000_abcdefghi" ∧ messages w2 = [] ∧
  length (chat_messages w2) = 4%nat.
Proof.
  destruct (reset_then_reload Sample4.env Sample4.env Sample3.page
              1700000000000 false eq_refl eq_refl) as (H1 & H2 & H3 & H4).
  cbn zeta. rewrite H2, H1, H3, H4; [by vm_compute |].
  rewrite H1. by repeat constructor.
Defined.

(** ** The gateway: saving and reading back *)

(** The table after a save against a store that answers. *)
Lemma saveMessage_table (env : Env) (w : World) (sessionId : string)
    (role : Sender) (content : string) (server_time : Z) (returning : bool) :
  service env = Healthy server_time returning →
  chat_messages (saveMessage sessionId role content env w).2
  = chat_messages w
    ++ [Store.complete server_time (S (length (chat_messages w)))
          (new_row sessionId role content)].
Proof.
  intros Hsvc.
  destruct (saveMessage_run env w sessionId role content) as (_ & _ & ->).
  by rewrite Hsvc.
Qed.

(** X16.  What is saved is read back: after a save against a store that
    answers, the history of the same session holds the rows it held before
    and one more, which carries the role and the content that were saved,
    an identifier and a timestamp given by the store; it is still sorted by
    ascending created_at. *)
Theorem save_then_read_back (env env' : Env) (w : World) (sessionId : string)
    (role : Sender) (content : string) (t t' : Z) (r r' : bool) :
  service env = Healthy t r → service env' = Healthy t' r' →
  let before := Store.select_history sessionId (chat_messages w) in
  let w1 := (saveMessage sessionId role content env w).2 in
  ∃ rows stored,
    (getHistory sessionId env' w1).1 = Normal (Some rows) ∧
    rows ≡ₚ before ++ [stored] ∧
    length rows = S (length before) ∧
    StronglySorted Store.created_le rows ∧
    ChatMessage.session_id stored = sessionId ∧
    ChatMessage.role stored = role_name role ∧
    ChatMessage.content stored = content ∧
    ChatMessage.created_at stored = Some t ∧
    is_Some (ChatMessage.id stored).
Proof.
  intros Hsvc Hsvc'. cbn zeta.
  destruct (getHistory_run env' (saveMessage sessionId role content env w).2
              sessionId) as (-> & _ & _).
  rewrite Hsvc', (saveMessage_table env w sessionId role content t r Hsvc).
  set (stored := Store.complete t _ _).
  assert (Store.select_history sessionId (chat_messages w ++ [stored])
          ≡ₚ Store.select_history sessionId (chat_messages w) ++ [stored]) as Hp.
  { destruct (select_history_sorted sessionId (chat_messages w ++ [stored]))
      as [_ ->].
    destruct (select_history_sorted sessionId (chat_messages w)) as [_ ->].
    rewrite filter_app. f_equiv.
    by rewrite filter_cons, decide_True. }
  exists (Store.select_history sessionId (chat_messages w ++ [stored])), stored.
  split; [done |]. split; [exact Hp |].
  split; [rewrite Hp, List.length_app; cbn; lia |].
  split; [apply select_history_sorted |].
  cbn. repeat (split; [done |]). by eexists.
Qed.

Lemma save_then_read_back_witness :
  ∃ rows,
    (getHistory "s1" Sample4.env
       (saveMessage "s1" user "a scarf" Sample4.env Sample3.page).2).1
    = Normal (Some rows) ∧ length rows = 4%nat.
Proof.
  destruct (save_then_read_back Sample4.env Sample4.env Sample3.page "s1" user
              "a scarf" 1700000000000 1700000000000 false false eq_refl eq_refl)
    as (rows & stored & Hr & _ & Hl & _).
  exists rows. split; [exact Hr |]. rewrite Hl. by vm_compute.
Defined.

(** X17.  Sessions are kept apart: a save into one session, whatever the
    store answers, changes nothing of what the history of another session
    reads. *)
Theorem save_leaves_other_sessions (env env' : Env) (w : World)
    (sessionId other : string) (role : Sender) (content : string) :
  other ≠ sessionId →
  (getHistory other env' (saveMessage sessionId role content env w).2).1
  = (getHistory other env' w).1.
Proof.
  intros Hne.
  destruct (getHistory_run env' (saveMessage sessionId role content env w).2 other)
    as (-> & _ & _).
  destruct (getHistory_run env' w other) as (-> & _ & _).
  destruct (saveMessage_run env w sessionId role content) as (_ & _ & ->).
  destruct (service env) as [t r | err | thrown]; [| done | done].
  cbn [Store.exec Store.insert_rows foldl fst].
  destruct (service env'); [| done | done].
  do 2 f_equal. unfold Store.select_history.
  rewrite filter_app, filter_cons, decide_False, filter_nil, app_nil_r; [done |].
  cbn. congruence.
Qed.

Lemma save_leaves_other_sessions_witness :
  (getHistory "s2" Sample4.env
     (saveMessage "s1" user "a scarf" Sample4.env Sample3.page).2).1
  = (getHistory "s2" Sample4.env Sample3.page).1.
Proof.
  apply (save_leaves_other_sessions Sample4.env Sample4.env Sample3.page
           "s1" "s2" user "a scarf").
  discriminate.
Defined.

(** ** The formatter: what the split keeps *)

Section Splitting.

Import Formatter.

Lemma string_app_assoc (a b c : string) : (a +:+ b) +:+ c = a +:+ b +:+ c.
Proof.
  induction a as [|x a IH]; [done |].
  change (String x a +:+ ?y) with (String x (a +:+ y)). cbn.
  change (String x (a +:+ b) +:+ c) with (String x ((a +:+ b) +:+ c)).
  by rewrite IH.
Qed.

Lemma string_app_empty_r (a : string) : a +:+ "" = a.
Proof.
  induction a as [|x a IH]; [done |].
  change (String x a +:+ ?y) with (String x (a +:+ y)). by rewrite IH.
Qed.

Lemma startsWith_skip (p s : string) :
  JS.startsWith p s = true → s = p +:+ JS.skip (String.length p) s.
Proof.
  revert s. induction p as [|a p IH]; intros [|b s]; cbn; try done.
  destruct (decide (a = b)) as [-> |]; [| done].
  intros H. change (String b p +:+ ?x) with (String b (p +:+ x)).
  f_equal. by apply IH.
Qed.

Lemma lazy_until_app (close s run rest : string) :
  lazy_until close s = Some (run, rest) → s = run +:+ close +:+ rest.
Proof.
  revert run. induction s as [|c s IH]; intros run; cbn [lazy_until].
  - destruct (JS.startsWith close "") eqn:Hp; [| done].
    intros [= <- <-]. by apply startsWith_skip.
  - destruct (JS.startsWith close (String c s)) eqn:Hp.
    + intros [= <- <-]. by apply startsWith_skip.
    + destruct (JS.is_line_terminator c); [done |].
      destruct (lazy_until close s) as [[run' rest']|] eqn:Hl; [| done].
      intros [= <- <-]. change (String c run' +:+ ?x) with (String c (run' +:+ x)).
      f_equal. by apply IH.
Qed.

(** A match is a prefix of the text it was tried on. *)
Lemma regex_exec_app (s captured rest : string) :
  regex_exec s = Some (captured, rest) → s = captured +:+ rest.
Proof.
  assert (∀ delim, delimited delim s = Some (captured, rest) →
                   s = captured +:+ rest) as Hd.
  { intros delim. unfold delimited.
    destruct (JS.startsWith delim s) eqn:Hp; [| done].
    destruct (lazy_until delim _) as [[run rest']|] eqn:Hl; [| done].
    intros [= <- <-]. apply lazy_until_app in Hl. apply startsWith_skip in Hp.
    rewrite Hp at 1. rewrite Hl.
    by rewrite !string_app_assoc. }
  unfold regex_exec. destruct (delimited "**" s) as [m|] eqn:H2.
  - intros [= ->]. by apply (Hd "**").
  - by apply (Hd "*").
Qed.

Lemma rev_app_append (p a b : string) :
  String.rev_app p a +:+ b = String.rev_app p (a +:+ b).
Proof. revert a. induction p as [|c p IH]; intros a; [done | apply IH]. Qed.

Lemma string_concat_cons (x : string) (l : list string) :
  String.concat "" (x :: l) = x +:+ String.concat "" l.
Proof. destruct l; [symmetry; apply string_app_empty_r | reflexivity]. Qed.

Lemma split_loop_concat (fuel : nat) (pending s : string) :
  String.concat "" (split_loop fuel pending s) = String.rev pending +:+ s.
Proof.
  revert pending s. induction fuel as [|fuel IH]; intros pending s; [done |].
  destruct s as [|c s]; cbn [split_loop];
    [cbn; by rewrite string_app_empty_r |].
  destruct (regex_exec (String c s)) as [[captured rest]|] eqn:Hm.
  - apply regex_exec_app in Hm. rewrite Hm, !string_concat_cons, IH. reflexivity.
  - rewrite IH. unfold String.rev. cbn [String.rev_app].
    by rewrite !rev_app_append.
Qed.

(** The parts at odd positions are captured runs. *)
Lemma split_loop_odd (fuel : nat) (pending s : string) (i : nat) (part : string) :
  split_loop fuel pending s !! i = Some part → Nat.odd i = true →
  ∃ s' rest, regex_exec s' = Some (part, rest).
Proof.
  revert pending s i. induction fuel as [|fuel IH]; intros pending s i.
  - destruct i as [|[|i]]; done.
  - destruct s as [|c s]; cbn [split_loop]; [by destruct i as [|[|i]] |].
    destruct (regex_exec (String c s)) as [[captured rest]|] eqn:Hm; [| apply IH].
    destruct i as [|[|i]]; [done | |].
    + intros [= <-] _. eauto.
    + intros Hi Hodd. apply (IH "" rest i); [done |].
      by rewrite Nat.odd_succ_succ in Hodd.
Qed.

Lemma split_loop_length_odd (fuel : nat) (pending s : string) :
  Nat.odd (length (split_loop fuel pending s)) = true.
Proof.
  revert pending s. induction fuel as [|fuel IH]; intros pending s; [done |].
  destruct s as [|c s]; cbn [split_loop]; [done |].
  destruct (regex_exec (String c s)) as [[captured rest]|]; [| apply IH].
  cbn [length]. rewrite Nat.odd_succ_succ. apply IH.
Qed.

End Splitting.

(** X18.  A text without any asterisk is returned as one plain segment
    holding the whole text (the empty text as one empty segment): on such
    texts the formatter changes nothing. *)
Theorem plain_text_is_one_segment (text : string) :
  Forall (λ c, c ≠ "*"%char) (String.list_ascii_of_string text) →
  Formatter.formatText text = [Formatter.Plain text].
Proof. apply formatText_no_asterisk. Qed.

Lemma plain_text_is_one_segment_witness :
  Formatter.formatText "Gift ideas for a 5 year old?"
  = [Formatter.Plain "Gift ideas for a 5 year old?"].
Proof.
  apply (plain_text_is_one_segment "Gift ideas for a 5 year old?").
  repeat (constructor; [discriminate |]). constructor.
Defined.

(** X19.  The split loses no character: the parts the formatter cuts a text
    into, put back together in order, are the text. *)
Theorem split_is_lossless (text : string) :
  String.concat "" (Formatter.split text) = text.
Proof. unfold Formatter.split. by rewrite split_loop_concat. Qed.

(** X20.  The segments alternate: the formatter returns an odd number of
    segments (so at least one), and every segment at an odd position is an
    emphasized one whose part is a run the pattern captured, rendered
    without its delimiters. *)
Theorem segments_alternate (text : string) :
  Nat.odd (length (Formatter.formatText text)) = true ∧
  ∀ i part,
    Formatter.split text !! i = Some part → Nat.odd i = true →
    ∃ body,
      (part = "**" +:+ body +:+ "**" ∨ part = "*" +:+ body +:+ "*") ∧
      Formatter.formatText text !! i = Some (Formatter.Strong i body).
Proof.
  unfold Formatter.formatText. split.
  - rewrite length_imap. apply split_loop_length_odd.
  - intros i part Hi Hodd.
    destruct (split_loop_odd _ _ _ _ _ Hi Hodd) as (s' & rest & Hm).
    destruct (captured_is_emphasized i s' part rest Hm) as (body & Hb & Hf).
    exists body. split; [exact Hb |].
    by rewrite list_lookup_imap, Hi; cbn; rewrite Hf.
Qed.

Lemma segments_alternate_witness :
  Formatter.formatText "a *b* c" !! 1%nat = Some (Formatter.Strong 1 "b").
Proof.
  destruct (segments_alternate "a *b* c") as [_ H].
  destruct (H 1%nat "*b*" eq_refl eq_refl) as (body & _ & Hf).
  pose proof Hf as Hbody. vm_compute in Hbody. injection Hbody as <-.
  exact Hf.
Defined.

(** ** Keys and the send button *)

(** X21.  Pressing Enter without Shift does to the page exactly what a
    click on the send button does, and prevents the default action of the
    key; any other key, and Enter with Shift, changes nothing and leaves
    the default action (the line break) to the browser. *)
Theorem enter_sends_like_the_button (env : Env) (w : World) (e : KeyboardEvent.t) :
  (KeyboardEvent.key e = "Enter" → KeyboardEvent.shiftKey e = false →
   (handleKeyPress e env w).1 = Normal true ∧
   (handleKeyPress e env w).2 = (handleSend env w).2) ∧
  (KeyboardEvent.key e ≠ "Enter" ∨ KeyboardEvent.shiftKey e = true →
   handleKeyPress e env w = (Normal false, w)).
Proof.
  unfold handleKeyPress. split.
  - intros Hk Hs. rewrite bool_decide_eq_true_2, Hs by done. cbn [andb negb].
    unfold mbind, mret, M_bind, M_ret, Run.bind, Run.ret.
    destruct (handleSend_appends env w) as [Hn _].
    destruct (handleSend env w) as [c w']. cbn in Hn. by subst.
  - intros [Hk | Hs].
    + by rewrite bool_decide_eq_false_2.
    + rewrite Hs. by rewrite andb_false_r.
Qed.

Lemma enter_sends_like_the_button_witness :
  handleKeyPress {| KeyboardEvent.key := "Enter"; KeyboardEvent.shiftKey := true |}
    (Sample.replying JNull) (Sample.typed "hello")
  = (Normal false, Sample.typed "hello").
Proof.
  apply (enter_sends_like_the_button (Sample.replying JNull) (Sample.typed "hello")
           {| KeyboardEvent.key := "Enter"; KeyboardEvent.shiftKey := true |}).
  by right.
Defined.

(** X22.  On a mounted page an enabled send button never leads to an
    ignored click: after the mount and any sequence of events, if the
    button is not disabled then a click passes the guard, appends the
    user's message and a bot message, and issues one request. *)
Theorem enabled_button_sends (env env' : Env) (events : list (Env * Action))
    (w : World) :
  let w1 := after ((env, Mount) :: events) w in
  send_disabled w1 = false →
  sendable w1 ∧
  ∃ u b, messages (handleSend env' w1).2 = messages w1 ++ [u; b] ∧
         Message.sender u = user ∧ Message.sender b = bot ∧
         length (requests (handleSend env' w1).2) = S (length (requests w1)).
Proof.
  cbn zeta. intros Hd.
  destruct (resolved_after_mount env events w) as [_ Hs].
  apply orb_false_elim in Hd as [_ Hi]. apply bool_decide_eq_false in Hi.
  assert (sendable (after ((env, Mount) :: events) w)) as Hsend by done.
  split; [done |].
  destruct (handleSend_world env' _ Hsend) as (b & n & -> & Hb).
  eexists _, b. cbn [snd messages requests].
  split; [done |]. split; [done |]. split; [done |].
  rewrite List.length_app. cbn. lia.
Qed.

Lemma enabled_button_sends_witness :
  sendable (after [(Sample4.env, Mount); (Sample4.env, Change "a gift for dad")]
              (unmounted ∅ [])).
Proof.
  apply (enabled_button_sends Sample4.env Sample4.env
           [(Sample4.env, Change "a gift for dad")] (unmounted ∅ [])).
  by vm_compute.
Defined.

(** ** The handlers between their awaits *)

Ltac run_phases :=
  repeat progress
    (unfold handleSend_unsuspended, handleSend_begin, handleSend_fetched,
       handleSend_parsed, initializeSession_unsuspended, initializeSession_begin,
       initializeSession_loaded, try_finally_unless_suspended, append_caught,
       issue, fetch_settled, ask, supabase_settled, supabase_await,
       localStorage_.getItem, localStorage_.setItem, new_session_id,
       Math_random, console_error, handleChange, handleChipClick;
     run_outer).

(** Run without a pause between its awaits, [handleSend] as cut at its
    awaits is [handleSend]. *)
Lemma handleSend_phases (env : Env) (w : World) :
  handleSend_unsuspended env w = handleSend env w.
Proof.
  unfold handleSend. run_phases.
  destruct (bool_decide _ || bool_decide _); [reflexivity |].
  destruct (network env _) as [r | t]; [| reflexivity].
  destruct (ok r); [| reflexivity].
  destruct (json r) as [d | t]; [| reflexivity].
  assert (d = JNull ∨ d ≠ JNull) as [-> | Hd]
    by (destruct d; [by left | by right ..]).
  - rewrite !or_else_null. reflexivity.
  - rewrite !(or_else_field d "reply") by done.
    destruct (truthy_field d "reply") as [v|];
      [| rewrite !(or_else_field d "message") by done;
         destruct (truthy_field d "message") as [v|]];
      run_outer; rewrite !(or_else_field d "chips") by done;
      destruct (truthy_field d "chips") as [c|]; reflexivity.
Qed.

(** And so is [initializeSession]. *)
Lemma initializeSession_phases (env : Env) (w : World) :
  initializeSession_unsuspended env w = initializeSession env w.
Proof.
  unfold initializeSession. run_phases.
  destruct (localStorage w !! "chatSessionId") as [s|];
    [destruct (decide (s = "")) |];
    (destruct (service env) as [server_time returning | err | t];
     run; [| reflexivity ..];
     destruct (Store.select_history _ (chat_messages w)); run; reflexivity).
Qed.

(** What each span of a handler does to the message list and leaves
    suspended: the spans of a send append to the list as it is when they
    run, and none of them awaits a history. *)
Lemma handleSend_begin_appends (env : Env) (w : World) :
  (∃ l, messages (handleSend_begin env w).2 = messages w ++ l) ∧
  Forall (λ q, awaits_history q = false) (suspended (handleSend_begin env w)).
Proof.
  run_phases. unfold suspended.
  destruct (bool_decide _ || bool_decide _); cbn.
  - split; [exists []; by rewrite app_nil_r | constructor].
  - split; [by eexists | by repeat constructor].
Qed.

Lemma handleSend_fetched_appends (req : Request) (env : Env) (w : World) :
  (∃ l, messages (handleSend_fetched req env w).2 = messages w ++ l) ∧
  Forall (λ q, awaits_history q = false) (suspended (handleSend_fetched req env w)).
Proof.
  run_phases. unfold suspended.
  destruct (network env req) as [r | t]; [destruct (ok r) |]; cbn.
  - split; [exists []; by rewrite app_nil_r | by repeat constructor].
  - split; [by eexists | constructor].
  - split; [by eexists | constructor].
Qed.

Lemma handleSend_parsed_appends (response : Response) (env : Env) (w : World) :
  (∃ l, messages (handleSend_parsed response env w).2 = messages w ++ l) ∧
  Forall (λ q, awaits_history q = false)
    (suspended (handleSend_parsed response env w)).
Proof.
  run_phases. unfold suspended.
  destruct (json response) as [d | t];
    [assert (d = JNull ∨ d ≠ JNull) as [-> | Hd]
       by (destruct d; [by left | by right ..]) |].
  - rewrite or_else_null. run_outer. cbn.
    split; [by eexists | constructor].
  - rewrite (or_else_field d "reply") by done.
    destruct (truthy_field d "reply") as [v|];
      [| rewrite (or_else_field d "message") by done;
         destruct (truthy_field d "message") as [v|]];
      run_outer; rewrite (or_else_field d "chips") by done;
      destruct (truthy_field d "chips") as [c|]; run_outer; cbn;
      (split; [by eexists | constructor]).
  - cbn. split; [by eexists | constructor].
Qed.

(** A turn that starts neither a mount nor a reset, on a page where no
    history is awaited, appends to the list and leaves no history
    awaited. *)
Lemma tick_appends (env : Env) (t : Tick) (p : Page) :
  Forall (λ q, awaits_history q = false) (pending p) → keeps_list t = true →
  messages (world p) `prefix_of` messages (world (tick env t p)) ∧
  Forall (λ q, awaits_history q = false) (pending (tick env t p)).
Proof.
  intros Hp Ht. destruct t as [a | i]; cbn [tick].
  - assert ((∃ l, messages (begin a env (world p)).2 = messages (world p) ++ l) ∧
            Forall (λ q, awaits_history q = false)
              (suspended (begin a env (world p)))) as [[l Hl] Hs].
    { destruct a as [| value | chip | | e |]; try discriminate; cbn [begin].
      - split; [exists []; by rewrite app_nil_r | constructor].
      - split; [exists []; by rewrite app_nil_r | constructor].
      - apply handleSend_begin_appends.
      - destruct (bool_decide _ && negb _); [apply handleSend_begin_appends |].
        split; [exists []; by rewrite app_nil_r | constructor]. }
    cbn [world pending]. split; [rewrite Hl; by apply prefix_app_r |].
    by apply Forall_app.
  - destruct (pending p !! i) as [task|] eqn:Hi; [| done].
    assert (awaits_history task = false) as Htask.
    { rewrite Forall_forall in Hp. apply Hp. by eapply list_elem_of_lookup_2. }
    assert ((∃ l, messages (settle task env (world p)).2 = messages (world p) ++ l) ∧
            Forall (λ q, awaits_history q = false)
              (suspended (settle task env (world p)))) as [[l Hl] Hs].
    { destruct task as [req | response | session]; [| | done]; cbn [settle].
      - apply handleSend_fetched_appends.
      - apply handleSend_parsed_appends. }
    cbn [world pending]. split; [rewrite Hl; by apply prefix_app_r |].
    apply Forall_app. split; [| done]. by apply Forall_delete.
Qed.

(** X10.  Once no history load is pending, and as long as the page is
    neither mounted again nor reset, the conversation only grows at its
    end: however the events, the sends and the answers to earlier sends
    interleave, the earlier message list is a prefix of the later one. *)
Theorem conversation_only_grows (schedule : list (Env * Tick)) (p : Page) :
  Forall (λ q, awaits_history q = false) (pending p) →
  Forall (λ et, keeps_list et.2 = true) schedule →
  messages (world p) `prefix_of` messages (world (interleaved schedule p)).
Proof.
  intros Hp Hs. revert p Hp.
  induction Hs as [|[env t] schedule Ht Hs IH]; intros p Hp; [done |].
  destruct (tick_appends env t p Hp Ht) as [Hpre Hp'].
  change (interleaved ((env, t) :: schedule) p)
    with (interleaved schedule (tick env t p)).
  etrans; [exact Hpre | by apply IH].
Qed.

Lemma conversation_only_grows_witness :
  messages Sample9.page
    `prefix_of` messages (world (interleaved Sample10.schedule Sample10.page)) ∧
  map Message.text
    (drop 2 (messages (world (interleaved Sample10.schedule Sample10.page))))
  = [JString "he likes fishing"; JString "or books";
     JString "Error: Failed to fetch"; JString "A rod?"].
Proof.
  split; [| vm_compute; reflexivity].
  apply (conversation_only_grows Sample10.schedule Sample10.page).
  - constructor.
  - by repeat constructor.
Defined.

(** While the history load of a mount is pending the list is not safe: a
    send that lands before the answer of the store is replaced with the
    history when the answer comes. *)
Lemma send_before_history_is_replaced :
  let p :=
    interleaved [(Sample4.env, Begin Mount);
                 (Sample4.env, Begin (Change "hello"));
                 (Sample4.env, Begin ClickSend)]
      {| world := unmounted {[ "chatSessionId" := "s1" ]} (chat_messages Sample3.page);
         pending := [] |} in
  map Message.text (messages (world p)) = [JString "hello"] ∧
  map Message.text (messages (world (tick Sample4.env (Settle 0) p)))
  = [JString "hi"; JString "Hello!"; JString "bye"].
Proof. split; vm_compute; reflexivity. Qed.
